(** * Checkpoint, alert-key and deny-address stores of monad

    A shallow embedding of the two Go packages [checkpoint]
    (src/checkpoint/checkpoint.go) and [database]
    (src/database/checkpoint.go), together with the parts of the Go
    standard library and of goleveldb they rely on:

    - [strconv.ParseInt] and the ["%020d"] verb of [fmt.Sprintf], which
      decode and encode the height keys;
    - [filepath.Join] (Unix flavour), which builds the database paths;
    - an ordered byte-key/byte-value store standing for [*leveldb.DB].

    Go values are modelled as follows: [int64] and [uint64] are [Z] with
    the wrap-around written out, [string] and [[]byte] are [string]
    (a list of 8-bit characters), a nilable [*leveldb.DB] is an
    [option DB], and a call that may dereference a nil pointer or call
    [os.Exit] returns an [outcome]. *)

From Stdlib Require Import ZArith NArith List String Ascii Bool Lia.
From Stdlib Require Import OrderedTypeEx.
Import ListNotations.

Local Open Scope string_scope.
Local Open Scope list_scope.
Local Open Scope Z_scope.

(** ** Go run-time outcomes *)

(** Errors that travel through the [error] interface in the two packages. *)
Inductive error : Type :=
| ErrSyntax                (* strconv.ErrSyntax *)
| ErrRange                 (* strconv.ErrRange *)
| ErrNotFound              (* leveldb.ErrNotFound *)
| ErrReadOnly              (* leveldb.ErrReadOnly *)
| ErrFlags (msg : string)  (* an error of the go-flags parser *)
| ErrOpen (msg : string)   (* an error of leveldb.OpenFile *)
| Errorf (msg : string).   (* fmt.Errorf *)

(** A call either returns, panics on a nil pointer dereference, or ends
    the process through [os.Exit]. *)
Inductive outcome (A : Type) : Type :=
| Ret (a : A)
| NilDeref
| Exit (code : Z).

Arguments Ret {A} a.
Arguments NilDeref {A}.
Arguments Exit {A} code.

Definition bind {A B : Type} (m : outcome A) (k : A -> outcome B) : outcome B :=
  match m with
  | Ret a => k a
  | NilDeref => NilDeref
  | Exit c => Exit c
  end.

Notation "x <- m ;; k" := (bind m (fun x => k))
  (at level 61, m at next level, right associativity).

(** ** Integer ranges *)

Definition maxUint64 : Z := 18446744073709551615.
Definition maxInt64 : Z := 9223372036854775807.
Definition minInt64 : Z := -9223372036854775808.

Definition is_int64 (h : Z) : Prop := minInt64 <= h <= maxInt64.

(** ** strconv *)

Module strconv.

(** [lower(c) = c | ('x' - 'X')]. *)
Definition lower (c : Z) : Z := Z.lor c 32.

(** The digit classification of the loop of [ParseUint]:
    ['0'..'9'] and letters have a value, anything else is a syntax
    error ([base0] is false, so ['_'] is not special). *)
Definition digit_val (c : Z) : option Z :=
  if (48 <=? c) && (c <=? 57) then Some (c - 48)
  else if (97 <=? lower c) && (lower c <=? 122) then Some (lower c - 97 + 10)
  else None.

(** [cutoff = maxUint64/10 + 1], [maxVal = 1<<64 - 1]. *)
Definition cutoff : Z := maxUint64 / 10 + 1.
Definition maxVal : Z := 2 ^ 64 - 1.

(** The loop of [ParseUint(s, 10, 64)] with accumulator [n]. *)
Fixpoint ParseUint_loop (s : string) (n : Z) : Z * option error :=
  match s with
  | EmptyString => (n, None)
  | String c s' =>
      match digit_val (Z.of_N (N_of_ascii c)) with
      | None => (0, Some ErrSyntax)
      | Some d =>
          if 10 <=? d then (0, Some ErrSyntax)
          else if cutoff <=? n then (maxVal, Some ErrRange)
          else
            let n' := n * 10 in
            let n1 := (n' + d) mod 2 ^ 64 in
            if (n1 <? n') || (maxVal <? n1) then (maxVal, Some ErrRange)
            else ParseUint_loop s' n1
      end
  end.

Definition ParseUint (s : string) : Z * option error :=
  match s with
  | EmptyString => (0, Some ErrSyntax)
  | _ => ParseUint_loop s 0
  end.

(** [ParseInt(s, 10, 64)]: an optional sign, then [ParseUint]; a range
    error saturates to the nearest bound, a syntax error yields 0. *)
Definition ParseInt (s : string) : Z * option error :=
  match s with
  | EmptyString => (0, Some ErrSyntax)
  | String c0 rest =>
      let '(neg, s1) :=
        if Ascii.eqb c0 "+" then (false, rest)
        else if Ascii.eqb c0 "-" then (true, rest)
        else (false, s) in
      let '(un, err) := ParseUint s1 in
      match err with
      | Some ErrRange | None =>
          let cutoff := 2 ^ 63 in
          if negb neg && (cutoff <=? un) then (cutoff - 1, Some ErrRange)
          else if neg && (cutoff <? un) then (- cutoff, Some ErrRange)
          else ((if neg then - un else un), None)
      | Some e => (0, Some e)
      end
  end.

End strconv.

(** ** fmt *)

Module fmt.

Definition digit (d : Z) : ascii := ascii_of_N (Z.to_N (48 + d)).

(** The right-to-left digit loop of [fmtInteger] in base 10:
    [for u >= 10 { ... }] followed by the last digit; [buf] is what has
    been written so far.  Twenty rounds are enough for a [uint64]. *)
Fixpoint fmt_digits (fuel : nat) (u : Z) (buf : list ascii) : list ascii :=
  match fuel with
  | O => buf
  | S fuel' =>
      if 10 <=? u then
        let next := u / 10 in
        fmt_digits fuel' next (digit (u - next * 10) :: buf)
      else digit u :: buf
  end.

(** Zero padding up to the precision, [for prec > len(buf)-i]. *)
Definition zero_pad (prec : nat) (buf : list ascii) : list ascii :=
  repeat "0"%char (prec - List.length buf) ++ buf.

(** [f.pad] with the zero flag cleared: spaces on the left up to the width. *)
Definition pad (wid : nat) (buf : list ascii) : list ascii :=
  repeat " "%char (wid - List.length buf) ++ buf.

(** [fmtInteger] for the verb ["%020d"] applied to an [int64]:
    width 20, zero flag, so the precision is the width, less one when a
    sign is printed. *)
Definition fmtInteger_020d (v : Z) : list ascii :=
  let negative := v <? 0 in
  let u := if negative then (- v) mod 2 ^ 64 else v in
  let prec := if negative then 19%nat else 20%nat in
  let buf := zero_pad prec (fmt_digits 20 u []) in
  let buf := if negative then "-"%char :: buf else buf in
  pad 20 buf.

(** [fmt.Sprintf("%020d", height)]. *)
Definition Sprintf_020d (height : Z) : string :=
  string_of_list_ascii (fmtInteger_020d height).

End fmt.

(** ** path/filepath (Unix) *)

Module filepath.

(** [strings.Split(path, "/")]. *)
Fixpoint split (path : string) : list string :=
  match path with
  | EmptyString => [EmptyString]
  | String c rest =>
      if Ascii.eqb c "/" then EmptyString :: split rest
      else
        match split rest with
        | [] => [String c EmptyString]
        | x :: xs => String c x :: xs
        end
  end.

Definition isRooted (path : string) : bool :=
  match path with
  | String c _ => Ascii.eqb c "/"
  | EmptyString => false
  end.

(** One path element against the elements kept so far ([out] is the
    output buffer, last element first), following the rules of [Clean]:
    empty and ["."] elements are dropped; [".."] removes the preceding
    element that is not [".."], is dropped at the root, and is kept
    otherwise; any other element is appended. *)
Definition clean_step (rooted : bool) (out : list string) (elem : string)
  : list string :=
  if String.eqb elem "" || String.eqb elem "." then out
  else if String.eqb elem ".." then
    match out with
    | top :: out' =>
        if String.eqb top ".." then (if rooted then out else elem :: out)
        else out'
    | [] => if rooted then [] else [elem]
    end
  else elem :: out.

(** [filepath.Clean]. *)
Definition Clean (path : string) : string :=
  match path with
  | EmptyString => "."
  | _ =>
      let rooted := isRooted path in
      let out := rev (fold_left (clean_step rooted) (split path) []) in
      if rooted then String "/" (String.concat "/" out)
      else match out with
           | [] => "."
           | _ => String.concat "/" out
           end
  end.

(** [filepath.Join]: leading empty elements are dropped, the rest is
    joined with the separator and cleaned; all empty gives [""]. *)
Fixpoint Join (elem : list string) : string :=
  match elem with
  | [] => ""
  | e :: rest =>
      if String.eqb e "" then Join rest
      else Clean (String.concat "/" elem)
  end.

End filepath.

(** ** goleveldb *)

Module leveldb.

(** The contents of a store: key/value pairs in ascending byte order of
    the keys ([bytes.Compare], here [String.compare]), without duplicate
    keys.  [readOnly] is the engine's read-only mode, in which every
    write is refused with [ErrReadOnly]. *)
Record DB : Type := mkDB {
  entries : list (string * string);
  readOnly : bool
}.

Fixpoint put (m : list (string * string)) (key value : string)
  : list (string * string) :=
  match m with
  | [] => [(key, value)]
  | (k, v) :: m' =>
      match String.compare key k with
      | Lt => (key, value) :: m
      | Eq => (key, value) :: m'
      | Gt => (k, v) :: put m' key value
      end
  end.

Fixpoint remove (m : list (string * string)) (key : string)
  : list (string * string) :=
  match m with
  | [] => []
  | (k, v) :: m' =>
      match String.compare key k with
      | Lt => m
      | Eq => m'
      | Gt => (k, v) :: remove m' key
      end
  end.

Fixpoint get (m : list (string * string)) (key : string) : option string :=
  match m with
  | [] => None
  | (k, v) :: m' => if String.eqb key k then Some v else get m' key
  end.

(** [db.Put(key, value, nil)]. *)
Definition Put (db : DB) (key value : string) : DB * option error :=
  if readOnly db then (db, Some ErrReadOnly)
  else (mkDB (put (entries db) key value) false, None).

(** [db.Delete(key, nil)]; deleting a missing key is not an error. *)
Definition Delete (db : DB) (key : string) : DB * option error :=
  if readOnly db then (db, Some ErrReadOnly)
  else (mkDB (remove (entries db) key) false, None).

(** [db.Get(key, nil)]: a missing key gives a nil slice and
    [ErrNotFound]; the nil slice converts to the empty string. *)
Definition Get (db : DB) (key : string) : string * option error :=
  match get (entries db) key with
  | Some v => (v, None)
  | None => ("", Some ErrNotFound)
  end.

(** [db.NewIterator(nil, nil)]: an iterator over a snapshot of the
    whole key space, in key order. *)
Definition NewIterator (db : DB) : list (string * string) := entries db.

(** [iter.Last()] followed by [iter.Valid()] and [iter.Key()]. *)
Definition Last (iter : list (string * string)) : option string :=
  match rev iter with
  | [] => None
  | (k, _) :: _ => Some k
  end.

Definition keys (db : DB) : list string := map fst (entries db).

Fixpoint sorted (m : list (string * string)) : Prop :=
  match m with
  | [] => True
  | (k, _) :: m' =>
      (forall k', In k' (map fst m') -> String.compare k k' = Lt) /\ sorted m'
  end.

End leveldb.

(** ** chaincfg and wire *)

Module chaincfg.

(** The fields of [chaincfg.Params] the two packages read. *)
Record Params : Type := mkParams {
  Name : string;
  Net : Z;
  AlertPubMainKey : string;
  AlertPubSubKey : string
}.

End chaincfg.

(** What the two packages import and what the process runs in: the
    network tables of [chaincfg], the constant [wire.TestNet4], the
    directory returned by [monautil.AppDataDir("monad", false)], and the
    answer of [leveldb.OpenFile] for a path (a handle on the store found
    or created there, or the engine's error).  What a closed store leaves
    on disk is not modelled. *)
Record Env : Type := mkEnv {
  wire_TestNet4 : Z;
  MainNetParams : chaincfg.Params;
  TestNet4Params : chaincfg.Params;
  RegressionNetParams : chaincfg.Params;
  SimNetParams : chaincfg.Params;
  AppDataDir : string;
  OpenFile : string -> leveldb.DB + error
}.

(** ** One goroutine of the process *)

Module runtime.

(** What a singleton accessor touches, for a store type [T]: the objects
    of that type allocated so far (a pointer is the index of its object,
    [None] is the nil pointer), the package variables [instance] and
    [once], and the time spent in [time.Sleep], in nanoseconds.  Calls
    follow one another; goroutines running at the same time are not
    modelled. *)
Record cell (T : Type) : Type := mkCell {
  heap : list T;
  instance : option nat;
  once : bool;
  slept : Z
}.

Arguments mkCell {T} heap instance once slept.
Arguments heap {T} c.
Arguments instance {T} c.
Arguments once {T} c.
Arguments slept {T} c.

(** [time.Second], a [time.Duration] in nanoseconds. *)
Definition Second : Z := 1000000000.

(** [time.Sleep(d)]. *)
Definition Sleep {T : Type} (d : Z) (c : cell T) : cell T :=
  mkCell (heap c) (instance c) (once c) (slept c + d).

(** [&T{...}]: a new object, and the pointer to it. *)
Definition new {T : Type} (v : T) (c : cell T) : nat * cell T :=
  (List.length (heap c),
   mkCell (heap c ++ [v]) (instance c) (once c) (slept c)).

(** [instance = p]. *)
Definition set_instance {T : Type} (p : option nat) (c : cell T) : cell T :=
  mkCell (heap c) p (once c) (slept c).

(** [once.Do(f)]: [f] runs unless an earlier [Do] has run, and [once] is
    marked done when it returns. *)
Definition Do {T : Type} (f : cell T -> cell T) (c : cell T) : cell T :=
  if once c then c
  else let c' := f c in mkCell (heap c') (instance c') true (slept c').

(** [*p = v], done by a caller that holds the pointer [p]. *)
Fixpoint store {T : Type} (p : nat) (v : T) (h : list T) : list T :=
  match h, p with
  | [], _ => []
  | _ :: h', O => v :: h'
  | x :: h', S p' => x :: store p' v h'
  end.

End runtime.

(** ** Package checkpoint (src/checkpoint/checkpoint.go) *)

Module checkpoint.

Definition userCheckpointDbNamePrefix : string := "usercheckpoints".
Definition volatileCheckpointDbNamePrefix : string := "volatilecheckpoints".
Definition alertKeyDbNamePrefix : string := "alertkey".
Definition defaultDbType : string := "leveldb".

(** The global configuration options. *)
Record config : Type := mkConfig {
  DataDir : string;
  ConfigFile : string;
  TestNet4 : bool;
  RegressionTest : bool;
  SimNet : bool
}.

(** What the go-flags parser leaves behind in [loadConfig]: the
    configuration it filled in from the file and the command line, the
    remaining arguments and the error of [parser.Parse()] (the error of
    the ini parser is overwritten and never looked at). *)
Record Parsed : Type := mkParsed {
  parsedCfg : config;
  remainingArgs : list string;
  parseErr : option error
}.

(** The package variable the functions below assign to. *)
Record globals : Type := mkGlobals { activeNetParams : chaincfg.Params }.

Section Package.

Context (E : Env) (P : Parsed).

Definition monadHomeDir : string := AppDataDir E.
Definition defaultDataDir : string := filepath.Join [monadHomeDir; "data"].
Definition defaultConfigFile : string :=
  filepath.Join [monadHomeDir; "monad.conf"].

(** Initial value of the package variable. *)
Definition init : globals := mkGlobals (MainNetParams E).

Definition netName (chainParams : chaincfg.Params) : string :=
  if chaincfg.Net chainParams =? wire_TestNet4 E then "testnet"
  else chaincfg.Name chainParams.

Definition loadConfig : (config * list string) + error :=
  match parseErr P with
  | Some err => inr err
  | None =>
      let cfg := parsedCfg P in
      let numNets := 0 in
      let numNets := if TestNet4 cfg then numNets + 1 else numNets in
      let numNets := if SimNet cfg then numNets + 1 else numNets in
      if 1 <? numNets then
        inr (Errorf ("loadConfig: The testnet and simnet params can't be used "
                     ++ "together -- choose one of the two"))
      else inl (cfg, remainingArgs P)
  end.

(** The three path functions: the configuration is loaded again at each
    call (a failure ends the process), the package variable is assigned
    for each flag that is set, and the path is joined. *)
Definition GetUserCheckpointDbPath (g : globals) : outcome (string * globals) :=
  match loadConfig with
  | inr _ => Exit 1
  | inl (cfg, _) =>
      let g := if TestNet4 cfg then mkGlobals (TestNet4Params E) else g in
      let g := if RegressionTest cfg
               then mkGlobals (RegressionNetParams E) else g in
      let g := if SimNet cfg then mkGlobals (SimNetParams E) else g in
      let dbName := (userCheckpointDbNamePrefix ++ "_" ++ defaultDbType)%string in
      let dbPath :=
        filepath.Join [defaultDataDir; netName (activeNetParams g); dbName] in
      Ret (dbPath, g)
  end.

Definition GetVolatileCheckpointDbPath (g : globals) : outcome (string * globals) :=
  match loadConfig with
  | inr _ => Exit 1
  | inl (cfg, _) =>
      let g := if TestNet4 cfg then mkGlobals (TestNet4Params E) else g in
      let g := if RegressionTest cfg
               then mkGlobals (RegressionNetParams E) else g in
      let g := if SimNet cfg then mkGlobals (SimNetParams E) else g in
      let dbName := (volatileCheckpointDbNamePrefix ++ "_" ++ defaultDbType)%string in
      let dbPath :=
        filepath.Join [defaultDataDir; netName (activeNetParams g); dbName] in
      Ret (dbPath, g)
  end.

Definition GetAlertKeyDbPath (g : globals) : outcome (string * globals) :=
  match loadConfig with
  | inr _ => Exit 1
  | inl (cfg, _) =>
      let g := if TestNet4 cfg then mkGlobals (TestNet4Params E) else g in
      let g := if RegressionTest cfg
               then mkGlobals (RegressionNetParams E) else g in
      let g := if SimNet cfg then mkGlobals (SimNetParams E) else g in
      let dbName := (alertKeyDbNamePrefix ++ "_" ++ defaultDbType)%string in
      let dbPath :=
        filepath.Join [defaultDataDir; netName (activeNetParams g); dbName] in
      Ret (dbPath, g)
  end.

(** The three functions above with the prefix as a parameter. *)
Definition GetDbPath (prefix : string) (g : globals)
  : outcome (string * globals) :=
  match loadConfig with
  | inr _ => Exit 1
  | inl (cfg, _) =>
      let g := if TestNet4 cfg then mkGlobals (TestNet4Params E) else g in
      let g := if RegressionTest cfg
               then mkGlobals (RegressionNetParams E) else g in
      let g := if SimNet cfg then mkGlobals (SimNetParams E) else g in
      let dbName := (prefix ++ "_" ++ defaultDbType)%string in
      let dbPath :=
        filepath.Join [defaultDataDir; netName (activeNetParams g); dbName] in
      Ret (dbPath, g)
  end.

(** *** UserCheckpoint *)

Record UserCheckpoint : Type := mkUserCheckpoint { Ucdb : option leveldb.DB }.

Definition UserCheckpoint_OpenDB (uc : UserCheckpoint) (g : globals)
  : outcome (option error * UserCheckpoint * globals) :=
  match Ucdb uc with
  | Some _ => Ret (None, uc, g)
  | None =>
      r <- GetUserCheckpointDbPath g ;;
      let '(dbpath, g') := r in
      match OpenFile E dbpath with
      | inl db => Ret (None, mkUserCheckpoint (Some db), g')
      | inr err => Ret (Some err, mkUserCheckpoint None, g')
      end
  end.

Definition UserCheckpoint_CloseDB (uc : UserCheckpoint) : UserCheckpoint :=
  match Ucdb uc with
  | None => uc
  | Some _ => mkUserCheckpoint None
  end.

Definition Add (uc : UserCheckpoint) (height : Z) (hash : string)
  : outcome UserCheckpoint :=
  match Ucdb uc with
  | None => NilDeref
  | Some db =>
      let '(db', _) := leveldb.Put db (fmt.Sprintf_020d height) hash in
      Ret (mkUserCheckpoint (Some db'))
  end.

Definition Delete (uc : UserCheckpoint) (height : Z) : outcome UserCheckpoint :=
  match Ucdb uc with
  | None => NilDeref
  | Some db =>
      let '(db', _) := leveldb.Delete db (fmt.Sprintf_020d height) in
      Ret (mkUserCheckpoint (Some db'))
  end.

Definition GetMaxCheckpointHeight (uc : UserCheckpoint) : outcome Z :=
  match Ucdb uc with
  | None => NilDeref
  | Some db =>
      let iter := leveldb.NewIterator db in
      match leveldb.Last iter with
      | None => Ret 0
      | Some key => Ret (fst (strconv.ParseInt key))
      end
  end.

(** *** VolatileCheckpoint *)

Record VolatileCheckpoint : Type :=
  mkVolatileCheckpoint { Vcdb : option leveldb.DB }.

Definition VolatileCheckpoint_OpenDB (vc : VolatileCheckpoint) (g : globals)
  : outcome (option error * VolatileCheckpoint * globals) :=
  match Vcdb vc with
  | Some _ => Ret (None, vc, g)
  | None =>
      r <- GetVolatileCheckpointDbPath g ;;
      let '(dbpath, g') := r in
      match OpenFile E dbpath with
      | inl db => Ret (None, mkVolatileCheckpoint (Some db), g')
      | inr err => Ret (Some err, mkVolatileCheckpoint None, g')
      end
  end.

Definition VolatileCheckpoint_CloseDB (vc : VolatileCheckpoint)
  : VolatileCheckpoint :=
  match Vcdb vc with
  | None => vc
  | Some _ => mkVolatileCheckpoint None
  end.

Definition VolatileCheckpoint_Set (vc : VolatileCheckpoint)
  (height : Z) (hash : string) : outcome VolatileCheckpoint :=
  match Vcdb vc with
  | None => NilDeref
  | Some db =>
      let '(db', _) := leveldb.Put db (fmt.Sprintf_020d height) hash in
      Ret (mkVolatileCheckpoint (Some db'))
  end.

(** The loop [for iter.Next() { ... }] of [ClearDB]: every key of the
    snapshot is deleted, and the first failing delete ends the loop. *)
Fixpoint ClearDB_loop (iter : list (string * string)) (db : leveldb.DB)
  : leveldb.DB :=
  match iter with
  | [] => db
  | (key, _) :: iter' =>
      let '(db', err) := leveldb.Delete db key in
      match err with
      | Some _ => db'
      | None => ClearDB_loop iter' db'
      end
  end.

Definition ClearDB (vc : VolatileCheckpoint) : outcome VolatileCheckpoint :=
  match Vcdb vc with
  | None => NilDeref
  | Some db =>
      let iter := leveldb.NewIterator db in
      Ret (mkVolatileCheckpoint (Some (ClearDB_loop iter db)))
  end.

(** *** AlertKey *)

Record AlertKey : Type := mkAlertKey { Akdb : option leveldb.DB }.

Definition AlertKey_OpenDB (ak : AlertKey) (g : globals)
  : outcome (option error * AlertKey * globals) :=
  match Akdb ak with
  | Some _ => Ret (None, ak, g)
  | None =>
      r <- GetAlertKeyDbPath g ;;
      let '(dbpath, g') := r in
      match OpenFile E dbpath with
      | inl db => Ret (None, mkAlertKey (Some db), g')
      | inr err => Ret (Some err, mkAlertKey None, g')
      end
  end.

Definition AlertKey_CloseDB (ak : AlertKey) : AlertKey :=
  match Akdb ak with
  | None => ak
  | Some _ => mkAlertKey None
  end.

Definition AlertKey_Set (ak : AlertKey) (key : string) : outcome AlertKey :=
  match Akdb ak with
  | None => NilDeref
  | Some db =>
      let '(db', _) := leveldb.Put db key "true" in
      Ret (mkAlertKey (Some db'))
  end.

Definition IsValid (ak : AlertKey) (g : globals) : outcome (bool * AlertKey) :=
  match Akdb ak with
  | None => NilDeref
  | Some db =>
      let mainKey := chaincfg.AlertPubMainKey (activeNetParams g) in
      let subKey := chaincfg.AlertPubSubKey (activeNetParams g) in
      let '(d1, err) := leveldb.Get db mainKey in
      let db :=
        match err with
        | Some _ => fst (leveldb.Put db mainKey "false")
        | None => db
        end in
      let '(d2, err) := leveldb.Get db subKey in
      let db :=
        match err with
        | Some _ => fst (leveldb.Put db subKey "false")
        | None => db
        end in
      if String.eqb d1 "false" && String.eqb d2 "false"
      then Ret (true, mkAlertKey (Some db))
      else Ret (false, mkAlertKey (Some db))
  end.

End Package.

(** *** The singleton accessors *)

Definition GetUserCheckpointDbInstance (c : runtime.cell UserCheckpoint)
  : option nat * runtime.cell UserCheckpoint :=
  let c :=
    runtime.Do
      (fun c =>
         let c := runtime.Sleep (1 * runtime.Second) c in
         let '(p, c) := runtime.new (mkUserCheckpoint None) c in
         runtime.set_instance (Some p) c)
      c in
  (runtime.instance c, c).

Definition GetVolatileCheckpointDbInstance (c : runtime.cell VolatileCheckpoint)
  : option nat * runtime.cell VolatileCheckpoint :=
  let c :=
    runtime.Do
      (fun c =>
         let c := runtime.Sleep (1 * runtime.Second) c in
         let '(p, c) := runtime.new (mkVolatileCheckpoint None) c in
         runtime.set_instance (Some p) c)
      c in
  (runtime.instance c, c).

Definition GetAlertKeyDbInstance (c : runtime.cell AlertKey)
  : option nat * runtime.cell AlertKey :=
  let c :=
    runtime.Do
      (fun c =>
         let c := runtime.Sleep (1 * runtime.Second) c in
         let '(p, c) := runtime.new (mkAlertKey None) c in
         runtime.set_instance (Some p) c)
      c in
  (runtime.instance c, c).

End checkpoint.

(** ** Package database (src/database/checkpoint.go) *)

Module database.

Definition userCheckpointDbNamePrefix : string := "usercheckpoints".
Definition volatileCheckpointDbNamePrefix : string := "volatilecheckpoints".
Definition alertKeyDbNamePrefix : string := "alertkey".
Definition denyAddressDbNamePrefix : string := "denyaddress".
Definition defaultDbType : string := "leveldb".

(** The three flags registered with package [flag], as [flag.Parse()]
    leaves them; [flagExit] is the exit code when the command line does
    not parse (the default flag set exits the process). *)
Record Parsed : Type := mkParsed {
  testnet : bool;
  regtest : bool;
  simnet : bool;
  flagExit : option Z
}.

Record globals : Type := mkGlobals { activeNetParams : chaincfg.Params }.

Section Package.

Context (E : Env) (P : Parsed).

Definition monadHomeDir : string := AppDataDir E.
Definition defaultDataDir : string := filepath.Join [monadHomeDir; "data"].

Definition init : globals := mkGlobals (MainNetParams E).

Definition netName (chainParams : chaincfg.Params) : string :=
  if chaincfg.Net chainParams =? wire_TestNet4 E then "testnet"
  else chaincfg.Name chainParams.

(** The four path functions: the command line is parsed again at each
    call, the package variable is assigned for each flag that is set, and
    the path is joined. *)
Definition GetUserCheckpointDbPath (g : globals) : outcome (string * globals) :=
  match flagExit P with
  | Some code => Exit code
  | None =>
      let g := if testnet P then mkGlobals (TestNet4Params E) else g in
      let g := if regtest P then mkGlobals (RegressionNetParams E) else g in
      let g := if simnet P then mkGlobals (SimNetParams E) else g in
      let dbName := (userCheckpointDbNamePrefix ++ "_" ++ defaultDbType)%string in
      let dbPath :=
        filepath.Join [defaultDataDir; netName (activeNetParams g); dbName] in
      Ret (dbPath, g)
  end.

Definition GetVolatileCheckpointDbPath (g : globals) : outcome (string * globals) :=
  match flagExit P with
  | Some code => Exit code
  | None =>
      let g := if testnet P then mkGlobals (TestNet4Params E) else g in
      let g := if regtest P then mkGlobals (RegressionNetParams E) else g in
      let g := if simnet P then mkGlobals (SimNetParams E) else g in
      let dbName := (volatileCheckpointDbNamePrefix ++ "_" ++ defaultDbType)%string in
      let dbPath :=
        filepath.Join [defaultDataDir; netName (activeNetParams g); dbName] in
      Ret (dbPath, g)
  end.

Definition GetAlertKeyDbPath (g : globals) : outcome (string * globals) :=
  match flagExit P with
  | Some code => Exit code
  | None =>
      let g := if testnet P then mkGlobals (TestNet4Params E) else g in
      let g := if regtest P then mkGlobals (RegressionNetParams E) else g in
      let g := if simnet P then mkGlobals (SimNetParams E) else g in
      let dbName := (alertKeyDbNamePrefix ++ "_" ++ defaultDbType)%string in
      let dbPath :=
        filepath.Join [defaultDataDir; netName (activeNetParams g); dbName] in
      Ret (dbPath, g)
  end.

Definition GetDenyAddressDbPath (g : globals) : outcome (string * globals) :=
  match flagExit P with
  | Some code => Exit code
  | None =>
      let g := if testnet P then mkGlobals (TestNet4Params E) else g in
      let g := if regtest P then mkGlobals (RegressionNetParams E) else g in
      let g := if simnet P then mkGlobals (SimNetParams E) else g in
      let dbName := (denyAddressDbNamePrefix ++ "_" ++ defaultDbType)%string in
      let dbPath :=
        filepath.Join [defaultDataDir; netName (activeNetParams g); dbName] in
      Ret (dbPath, g)
  end.

(** The four functions above with the prefix as a parameter. *)
Definition GetDbPath (prefix : string) (g : globals)
  : outcome (string * globals) :=
  match flagExit P with
  | Some code => Exit code
  | None =>
      let g := if testnet P then mkGlobals (TestNet4Params E) else g in
      let g := if regtest P then mkGlobals (RegressionNetParams E) else g in
      let g := if simnet P then mkGlobals (SimNetParams E) else g in
      let dbName := (prefix ++ "_" ++ defaultDbType)%string in
      let dbPath :=
        filepath.Join [defaultDataDir; netName (activeNetParams g); dbName] in
      Ret (dbPath, g)
  end.

(** *** UserCheckpoint *)

Record UserCheckpoint : Type := mkUserCheckpoint { Ucdb : option leveldb.DB }.

Definition UserCheckpoint_OpenDB (uc : UserCheckpoint) (g : globals)
  : outcome (option error * UserCheckpoint * globals) :=
  match Ucdb uc with
  | Some _ => Ret (None, uc, g)
  | None =>
      r <- GetUserCheckpointDbPath g ;;
      let '(dbpath, g') := r in
      match OpenFile E dbpath with
      | inl db => Ret (None, mkUserCheckpoint (Some db), g')
      | inr err => Ret (Some err, mkUserCheckpoint None, g')
      end
  end.

Definition UserCheckpoint_CloseDB (uc : UserCheckpoint) : UserCheckpoint :=
  match Ucdb uc with
  | None => uc
  | Some _ => mkUserCheckpoint None
  end.

Definition Add (uc : UserCheckpoint) (height : Z) (hash : string)
  : outcome UserCheckpoint :=
  match Ucdb uc with
  | None => NilDeref
  | Some db =>
      let '(db', _) := leveldb.Put db (fmt.Sprintf_020d height) hash in
      Ret (mkUserCheckpoint (Some db'))
  end.

Definition Delete (uc : UserCheckpoint) (height : Z) : outcome UserCheckpoint :=
  match Ucdb uc with
  | None => NilDeref
  | Some db =>
      let '(db', _) := leveldb.Delete db (fmt.Sprintf_020d height) in
      Ret (mkUserCheckpoint (Some db'))
  end.

Definition GetMaxCheckpointHeight (uc : UserCheckpoint) : outcome Z :=
  match Ucdb uc with
  | None => NilDeref
  | Some db =>
      let iter := leveldb.NewIterator db in
      match leveldb.Last iter with
      | None => Ret 0
      | Some key => Ret (fst (strconv.ParseInt key))
      end
  end.

(** *** VolatileCheckpoint *)

Record VolatileCheckpoint : Type :=
  mkVolatileCheckpoint { Vcdb : option leveldb.DB }.

Definition VolatileCheckpoint_OpenDB (vc : VolatileCheckpoint) (g : globals)
  : outcome (option error * VolatileCheckpoint * globals) :=
  match Vcdb vc with
  | Some _ => Ret (None, vc, g)
  | None =>
      r <- GetVolatileCheckpointDbPath g ;;
      let '(dbpath, g') := r in
      match OpenFile E dbpath with
      | inl db => Ret (None, mkVolatileCheckpoint (Some db), g')
      | inr err => Ret (Some err, mkVolatileCheckpoint None, g')
      end
  end.

Definition VolatileCheckpoint_CloseDB (vc : VolatileCheckpoint)
  : VolatileCheckpoint :=
  match Vcdb vc with
  | None => vc
  | Some _ => mkVolatileCheckpoint None
  end.

Definition VolatileCheckpoint_Set (vc : VolatileCheckpoint)
  (height : Z) (hash : string) : outcome VolatileCheckpoint :=
  match Vcdb vc with
  | None => NilDeref
  | Some db =>
      let '(db', _) := leveldb.Put db (fmt.Sprintf_020d height) hash in
      Ret (mkVolatileCheckpoint (Some db'))
  end.

(** The loop [for iter.Next() { ... }] of [ClearDB]: every key of the
    snapshot is deleted, and the first failing delete ends the loop. *)
Fixpoint ClearDB_loop (iter : list (string * string)) (db : leveldb.DB)
  : leveldb.DB :=
  match iter with
  | [] => db
  | (key, _) :: iter' =>
      let '(db', err) := leveldb.Delete db key in
      match err with
      | Some _ => db'
      | None => ClearDB_loop iter' db'
      end
  end.

Definition ClearDB (vc : VolatileCheckpoint) : outcome VolatileCheckpoint :=
  match Vcdb vc with
  | None => NilDeref
  | Some db =>
      let iter := leveldb.NewIterator db in
      Ret (mkVolatileCheckpoint (Some (ClearDB_loop iter db)))
  end.

(** *** AlertKey *)

Record AlertKey : Type := mkAlertKey { Akdb : option leveldb.DB }.

Definition AlertKey_OpenDB (ak : AlertKey) (g : globals)
  : outcome (option error * AlertKey * globals) :=
  match Akdb ak with
  | Some _ => Ret (None, ak, g)
  | None =>
      r <- GetAlertKeyDbPath g ;;
      let '(dbpath, g') := r in
      match OpenFile E dbpath with
      | inl db => Ret (None, mkAlertKey (Some db), g')
      | inr err => Ret (Some err, mkAlertKey None, g')
      end
  end.

Definition AlertKey_CloseDB (ak : AlertKey) : AlertKey :=
  match Akdb ak with
  | None => ak
  | Some _ => mkAlertKey None
  end.

Definition AlertKey_Set (ak : AlertKey) (key : string) : outcome AlertKey :=
  match Akdb ak with
  | None => NilDeref
  | Some db =>
      let '(db', _) := leveldb.Put db key "true" in
      Ret (mkAlertKey (Some db'))
  end.

Definition IsValid (ak : AlertKey) (g : globals) : outcome (bool * AlertKey) :=
  match Akdb ak with
  | None => NilDeref
  | Some db =>
      let mainKey := chaincfg.AlertPubMainKey (activeNetParams g) in
      let subKey := chaincfg.AlertPubSubKey (activeNetParams g) in
      let '(d1, err) := leveldb.Get db mainKey in
      let db :=
        match err with
        | Some _ => fst (leveldb.Put db mainKey "false")
        | None => db
        end in
      let '(d2, err) := leveldb.Get db subKey in
      let db :=
        match err with
        | Some _ => fst (leveldb.Put db subKey "false")
        | None => db
        end in
      if String.eqb d1 "false" && String.eqb d2 "false"
      then Ret (true, mkAlertKey (Some db))
      else Ret (false, mkAlertKey (Some db))
  end.

(** *** DenyAddress *)

Record DenyAddress : Type := mkDenyAddress { Dadb : option leveldb.DB }.

Definition DenyAddress_OpenDB (da : DenyAddress) (g : globals)
  : outcome (option error * DenyAddress * globals) :=
  match Dadb da with
  | Some _ => Ret (None, da, g)
  | None =>
      r <- GetDenyAddressDbPath g ;;
      let '(dbpath, g') := r in
      match OpenFile E dbpath with
      | inl db => Ret (None, mkDenyAddress (Some db), g')
      | inr err => Ret (Some err, mkDenyAddress None, g')
      end
  end.

Definition DenyAddress_CloseDB (da : DenyAddress) : DenyAddress :=
  match Dadb da with
  | None => da
  | Some _ => mkDenyAddress None
  end.

Definition DenyAddress_Set (da : DenyAddress) (address : string)
  : outcome DenyAddress :=
  match Dadb da with
  | None => NilDeref
  | Some db =>
      let '(db', _) := leveldb.Put db address "0" in
      Ret (mkDenyAddress (Some db'))
  end.

End Package.

(** *** The singleton accessors *)

Definition GetUserCheckpointDbInstance (c : runtime.cell UserCheckpoint)
  : option nat * runtime.cell UserCheckpoint :=
  let c :=
    runtime.Do
      (fun c =>
         let c := runtime.Sleep (1 * runtime.Second) c in
         let '(p, c) := runtime.new (mkUserCheckpoint None) c in
         runtime.set_instance (Some p) c)
      c in
  (runtime.instance c, c).

Definition GetVolatileCheckpointDbInstance (c : runtime.cell VolatileCheckpoint)
  : option nat * runtime.cell VolatileCheckpoint :=
  let c :=
    runtime.Do
      (fun c =>
         let c := runtime.Sleep (1 * runtime.Second) c in
         let '(p, c) := runtime.new (mkVolatileCheckpoint None) c in
         runtime.set_instance (Some p) c)
      c in
  (runtime.instance c, c).

Definition GetAlertKeyDbInstance (c : runtime.cell AlertKey)
  : option nat * runtime.cell AlertKey :=
  let c :=
    runtime.Do
      (fun c =>
         let c := runtime.Sleep (1 * runtime.Second) c in
         let '(p, c) := runtime.new (mkAlertKey None) c in
         runtime.set_instance (Some p) c)
      c in
  (runtime.instance c, c).

Definition GetDenyAddressDbInstance (c : runtime.cell DenyAddress)
  : option nat * runtime.cell DenyAddress :=
  let c :=
    runtime.Do
      (fun c =>
         let c := runtime.Sleep (1 * runtime.Second) c in
         let '(p, c) := runtime.new (mkDenyAddress None) c in
         runtime.set_instance (Some p) c)
      c in
  (runtime.instance c, c).

End database.

(** * Vocabulary of the properties *)

(** ** Histories of a UserCheckpoint store *)

(** The two mutators of UserCheckpoint as data. *)
Inductive mutation : Type :=
| MAdd (height : Z) (hash : string)
| MDelete (height : Z).

Definition mutation_height (m : mutation) : Z :=
  match m with MAdd h _ => h | MDelete h => h end.

Definition added_nonneg (m : mutation) : Prop :=
  match m with MAdd h _ => 0 <= h | MDelete _ => True end.

(** The calls of a history, one after the other, on package checkpoint. *)
Fixpoint apply_mutations (ms : list mutation) (uc : checkpoint.UserCheckpoint)
  : outcome checkpoint.UserCheckpoint :=
  match ms with
  | [] => Ret uc
  | m :: ms' =>
      uc' <- match m with
             | MAdd h hash => checkpoint.Add uc h hash
             | MDelete h => checkpoint.Delete uc h
             end ;;
      apply_mutations ms' uc'
  end.

(** The heights a history leaves in the store, read off the calls: an
    inserted height is in, a deleted one is out. *)
Fixpoint stored_heights (ms : list mutation) (S : list Z) : list Z :=
  match ms with
  | [] => S
  | MAdd h _ :: ms' => stored_heights ms' (h :: List.remove Z.eq_dec h S)
  | MDelete h :: ms' => stored_heights ms' (List.remove Z.eq_dec h S)
  end.

(** [r] is the greatest element of [S], or 0 when [S] is empty. *)
Definition max_or_zero (S : list Z) (r : Z) : Prop :=
  match S with
  | [] => r = 0
  | _ => In r S /\ forall h, In h S -> h <= r
  end.

(** A freshly created, writable, empty store. *)
Definition empty_db : leveldb.DB := leveldb.mkDB [] false.

(** ** Fixed-width digits *)

(** [n] decimal digits of [u], most significant first. *)
Fixpoint fixed (n : nat) (u : Z) : list ascii :=
  match n with
  | O => []
  | S n' => fixed n' (u / 10) ++ [fmt.digit (u mod 10)]
  end.

(** ** Stores used in the statements *)

(** What a history of non-negative insertions maintains: the store is
    writable and sorted, and its keys are the keys of the heights in [S]. *)
Definition tracks (db : leveldb.DB) (S : list Z) : Prop :=
  leveldb.readOnly db = false /\
  leveldb.sorted (leveldb.entries db) /\
  (forall k, In k (leveldb.keys db) <->
             exists h, In h S /\ k = fmt.Sprintf_020d h) /\
  Forall (fun h => 0 <= h <= maxInt64) S.

(** The scenario of the specification. *)
Definition scenario_100_50_200 : list mutation :=
  [MAdd 100 "a"; MAdd 50 "b"; MAdd 200 "c"].

(** A store whose last key is not a number, and one whose last key is a
    number too large for 64 bits. *)
Definition junk_db : leveldb.DB :=
  leveldb.mkDB [("00000000000000000100", "a"); ("0000000000000000012x", "b")]
               false.

Definition overflow_db : leveldb.DB :=
  leveldb.mkDB [("00000000000000000100", "a"); ("99999999999999999999", "b")]
               false.

(** ** A sample environment *)

(** Four network tables with distinct names,
    magic numbers and alert keys, a home directory, and an engine that
    creates an empty store at any path. *)
Definition sample_TestNet4 : Z := 4.

Definition sample_params (name : string) (net : Z) : chaincfg.Params :=
  chaincfg.mkParams name net ("main-" ++ name) ("sub-" ++ name).

Definition sample_env : Env :=
  mkEnv sample_TestNet4
        (sample_params "mainnet" 1)
        (sample_params "testnet4" sample_TestNet4)
        (sample_params "regtest" 2)
        (sample_params "simnet" 3)
        "/home/user/.monad"
        (fun _ => inl empty_db).

Definition sample_globals : checkpoint.globals := checkpoint.init sample_env.

(** ** Clean paths *)

(** A path element that [Clean] keeps as it is: not empty, not ["."],
    not [".."], and without a separator. *)
Fixpoint no_slash (s : string) : bool :=
  match s with
  | EmptyString => true
  | String c s' => negb (Ascii.eqb c "/") && no_slash s'
  end.

Definition plain (s : string) : bool :=
  negb (String.eqb s "") && negb (String.eqb s ".") &&
  negb (String.eqb s "..") && no_slash s.

(** A directory in the form [Clean] returns, other than ["."] and ["/"]. *)
Definition clean_dir (s : string) : Prop :=
  filepath.Clean s = s /\ s <> "." /\ s <> "/".

(** How [Clean] writes its output buffer out. *)
Definition render (rooted : bool) (out : list string) : string :=
  if rooted then String "/" (String.concat "/" out)
  else match out with [] => "." | _ => String.concat "/" out end.

Definition all_dotdot (out : list string) : bool :=
  forallb (fun c => String.eqb c "..") out.

(** The shape of the output buffer of [Clean], last element first: plain
    elements on top of a run of [".."] that only a relative path keeps. *)
Fixpoint well_formed (rooted : bool) (out : list string) : bool :=
  match out with
  | [] => true
  | c :: out' =>
      if String.eqb c ".." then negb rooted && all_dotdot out'
      else plain c && well_formed rooted out'
  end.

(** A non-empty path element. *)
Definition element (c : string) : Prop := c <> "" /\ no_slash c = true.

(** ** Network selection *)

Inductive NetworkSelector : Type := MainNet | TestNet | RegressionTest | SimNet.

Definition selected_params (E : Env) (sel : NetworkSelector) : chaincfg.Params :=
  match sel with
  | MainNet => MainNetParams E
  | TestNet => TestNet4Params E
  | RegressionTest => RegressionNetParams E
  | SimNet => SimNetParams E
  end.

(** The flags (testnet, regtest, simnet) that select a network. *)
Definition selector_flags (sel : NetworkSelector) : bool * bool * bool :=
  match sel with
  | MainNet => (false, false, false)
  | TestNet => (true, false, false)
  | RegressionTest => (false, true, false)
  | SimNet => (false, false, true)
  end.

Definition checkpoint_selects (P : checkpoint.Parsed) (sel : NetworkSelector)
  : Prop :=
  checkpoint.parseErr P = None /\
  (checkpoint.TestNet4 (checkpoint.parsedCfg P),
   checkpoint.RegressionTest (checkpoint.parsedCfg P),
   checkpoint.SimNet (checkpoint.parsedCfg P)) = selector_flags sel.

Definition database_selects (P : database.Parsed) (sel : NetworkSelector)
  : Prop :=
  database.flagExit P = None /\
  (database.testnet P, database.regtest P, database.simnet P)
    = selector_flags sel.

(** The directory table of the specification: TestNet4 maps to
    "testnet", every other network to its canonical name. *)
Definition networkDirName (E : Env) (sel : NetworkSelector) : string :=
  let p := selected_params E sel in
  if chaincfg.Net p =? wire_TestNet4 E then "testnet" else chaincfg.Name p.

(** [<dataRoot>/<networkDirName>/<prefix>_<engineType>]. *)
Definition layout (dataRoot dir prefix engineType : string) : string :=
  (dataRoot ++ "/" ++ dir ++ "/" ++ prefix ++ "_" ++ engineType)%string.

(** The path functions of the two packages with their prefixes. *)
Definition checkpoint_path_functions (E : Env) (P : checkpoint.Parsed)
  : list (string * (checkpoint.globals -> outcome (string * checkpoint.globals))) :=
  [ ("usercheckpoints", checkpoint.GetUserCheckpointDbPath E P);
    ("volatilecheckpoints", checkpoint.GetVolatileCheckpointDbPath E P);
    ("alertkey", checkpoint.GetAlertKeyDbPath E P) ].

Definition database_path_functions (E : Env) (P : database.Parsed)
  : list (string * (database.globals -> outcome (string * database.globals))) :=
  [ ("usercheckpoints", database.GetUserCheckpointDbPath E P);
    ("volatilecheckpoints", database.GetVolatileCheckpointDbPath E P);
    ("alertkey", database.GetAlertKeyDbPath E P);
    ("denyaddress", database.GetDenyAddressDbPath E P) ].

(** Selections used in the examples. *)
Definition testnet_cfg : checkpoint.Parsed :=
  checkpoint.mkParsed (checkpoint.mkConfig "" "" true false false) [] None.

Definition testnet_flags : database.Parsed :=
  database.mkParsed true false false None.

Definition testnet_simnet_cfg : checkpoint.Parsed :=
  checkpoint.mkParsed (checkpoint.mkConfig "" "" true false true) [] None.

Definition testnet_simnet_flags : database.Parsed :=
  database.mkParsed true false true None.


(** ** The stores as instances of one interface *)

(** What the four stores have in common: a handle, OpenDB, CloseDB and
    the function that resolves the path of the store. *)
Class NamespaceStore (T G : Type) : Type := {
  handle : T -> option leveldb.DB;
  OpenDB : T -> G -> outcome (option error * T * G);
  CloseDB : T -> T;
  DbPath : G -> outcome (string * G)
}.

#[export] Instance checkpoint_UserCheckpoint (E : Env) (P : checkpoint.Parsed)
  : NamespaceStore checkpoint.UserCheckpoint checkpoint.globals :=
  {| handle := checkpoint.Ucdb;
     OpenDB := checkpoint.UserCheckpoint_OpenDB E P;
     CloseDB := checkpoint.UserCheckpoint_CloseDB;
     DbPath := checkpoint.GetUserCheckpointDbPath E P |}.

#[export] Instance checkpoint_VolatileCheckpoint (E : Env) (P : checkpoint.Parsed)
  : NamespaceStore checkpoint.VolatileCheckpoint checkpoint.globals :=
  {| handle := checkpoint.Vcdb;
     OpenDB := checkpoint.VolatileCheckpoint_OpenDB E P;
     CloseDB := checkpoint.VolatileCheckpoint_CloseDB;
     DbPath := checkpoint.GetVolatileCheckpointDbPath E P |}.

#[export] Instance checkpoint_AlertKey (E : Env) (P : checkpoint.Parsed)
  : NamespaceStore checkpoint.AlertKey checkpoint.globals :=
  {| handle := checkpoint.Akdb;
     OpenDB := checkpoint.AlertKey_OpenDB E P;
     CloseDB := checkpoint.AlertKey_CloseDB;
     DbPath := checkpoint.GetAlertKeyDbPath E P |}.

#[export] Instance database_UserCheckpoint (E : Env) (P : database.Parsed)
  : NamespaceStore database.UserCheckpoint database.globals :=
  {| handle := database.Ucdb;
     OpenDB := database.UserCheckpoint_OpenDB E P;
     CloseDB := database.UserCheckpoint_CloseDB;
     DbPath := database.GetUserCheckpointDbPath E P |}.

#[export] Instance database_VolatileCheckpoint (E : Env) (P : database.Parsed)
  : NamespaceStore database.VolatileCheckpoint database.globals :=
  {| handle := database.Vcdb;
     OpenDB := database.VolatileCheckpoint_OpenDB E P;
     CloseDB := database.VolatileCheckpoint_CloseDB;
     DbPath := database.GetVolatileCheckpointDbPath E P |}.

#[export] Instance database_AlertKey (E : Env) (P : database.Parsed)
  : NamespaceStore database.AlertKey database.globals :=
  {| handle := database.Akdb;
     OpenDB := database.AlertKey_OpenDB E P;
     CloseDB := database.AlertKey_CloseDB;
     DbPath := database.GetAlertKeyDbPath E P |}.

#[export] Instance database_DenyAddress (E : Env) (P : database.Parsed)
  : NamespaceStore database.DenyAddress database.globals :=
  {| handle := database.Dadb;
     OpenDB := database.DenyAddress_OpenDB E P;
     CloseDB := database.DenyAddress_CloseDB;
     DbPath := database.GetDenyAddressDbPath E P |}.

(** OpenDB on an open handle changes nothing and returns no error;
    CloseDB on a closed handle changes nothing; CloseDB always leaves the
    handle nil and can be repeated; and after a CloseDB, OpenDB asks the
    engine for the store again and keeps the handle it gets. *)
Definition lifecycle {T G : Type} (S : NamespaceStore T G) (E : Env) : Prop :=
  (forall s g db, handle s = Some db -> OpenDB s g = Ret (None, s, g)) /\
  (forall s, handle s = None -> CloseDB s = s) /\
  (forall s, handle (CloseDB s) = None /\
             CloseDB (CloseDB s) = CloseDB s) /\
  (forall s g path g' db,
     DbPath g = Ret (path, g') -> OpenFile E path = inl db ->
     exists s', OpenDB (CloseDB s) g = Ret (None, s', g') /\
                handle s' = Some db).

(** ** Runs of the two packages *)

(** Calls on a UserCheckpoint store and on a VolatileCheckpoint store. *)
Inductive uc_call : Type :=
| UcOpenDB
| UcCloseDB
| UcAdd (height : Z) (hash : string)
| UcDelete (height : Z)
| UcGetMaxCheckpointHeight.

Inductive vc_call : Type :=
| VcOpenDB
| VcCloseDB
| VcSet (height : Z) (hash : string)
| VcClearDB.

(** What a call gives back to its caller. *)
Inductive answer : Type :=
| AError (err : option error)
| ADone
| AHeight (height : Z).

Definition omap {A B : Type} (f : A -> B) (m : outcome A) : outcome B :=
  match m with
  | Ret a => Ret (f a)
  | NilDeref => NilDeref
  | Exit c => Exit c
  end.

(** A sequence of calls: the answers in order and the final state. *)
Fixpoint run {C S : Type} (step : C -> S -> outcome (answer * S))
  (calls : list C) (s : S) : outcome (list answer * S) :=
  match calls with
  | [] => Ret ([], s)
  | c :: calls' =>
      r <- step c s ;;
      r' <- run step calls' (snd r) ;;
      Ret (fst r :: fst r', snd r')
  end.

Definition checkpoint_uc_step (E : Env) (P : checkpoint.Parsed) (c : uc_call)
  (s : checkpoint.UserCheckpoint * checkpoint.globals)
  : outcome (answer * (checkpoint.UserCheckpoint * checkpoint.globals)) :=
  let '(uc, g) := s in
  match c with
  | UcOpenDB =>
      omap (fun r => (AError (fst (fst r)), (snd (fst r), snd r)))
           (checkpoint.UserCheckpoint_OpenDB E P uc g)
  | UcCloseDB => Ret (ADone, (checkpoint.UserCheckpoint_CloseDB uc, g))
  | UcAdd h hash => omap (fun uc' => (ADone, (uc', g))) (checkpoint.Add uc h hash)
  | UcDelete h => omap (fun uc' => (ADone, (uc', g))) (checkpoint.Delete uc h)
  | UcGetMaxCheckpointHeight =>
      omap (fun h => (AHeight h, (uc, g))) (checkpoint.GetMaxCheckpointHeight uc)
  end.

Definition database_uc_step (E : Env) (P : database.Parsed) (c : uc_call)
  (s : database.UserCheckpoint * database.globals)
  : outcome (answer * (database.UserCheckpoint * database.globals)) :=
  let '(uc, g) := s in
  match c with
  | UcOpenDB =>
      omap (fun r => (AError (fst (fst r)), (snd (fst r), snd r)))
           (database.UserCheckpoint_OpenDB E P uc g)
  | UcCloseDB => Ret (ADone, (database.UserCheckpoint_CloseDB uc, g))
  | UcAdd h hash => omap (fun uc' => (ADone, (uc', g))) (database.Add uc h hash)
  | UcDelete h => omap (fun uc' => (ADone, (uc', g))) (database.Delete uc h)
  | UcGetMaxCheckpointHeight =>
      omap (fun h => (AHeight h, (uc, g))) (database.GetMaxCheckpointHeight uc)
  end.

Definition checkpoint_vc_step (E : Env) (P : checkpoint.Parsed) (c : vc_call)
  (s : checkpoint.VolatileCheckpoint * checkpoint.globals)
  : outcome (answer * (checkpoint.VolatileCheckpoint * checkpoint.globals)) :=
  let '(vc, g) := s in
  match c with
  | VcOpenDB =>
      omap (fun r => (AError (fst (fst r)), (snd (fst r), snd r)))
           (checkpoint.VolatileCheckpoint_OpenDB E P vc g)
  | VcCloseDB => Ret (ADone, (checkpoint.VolatileCheckpoint_CloseDB vc, g))
  | VcSet h hash =>
      omap (fun vc' => (ADone, (vc', g)))
           (checkpoint.VolatileCheckpoint_Set vc h hash)
  | VcClearDB => omap (fun vc' => (ADone, (vc', g))) (checkpoint.ClearDB vc)
  end.

Definition database_vc_step (E : Env) (P : database.Parsed) (c : vc_call)
  (s : database.VolatileCheckpoint * database.globals)
  : outcome (answer * (database.VolatileCheckpoint * database.globals)) :=
  let '(vc, g) := s in
  match c with
  | VcOpenDB =>
      omap (fun r => (AError (fst (fst r)), (snd (fst r), snd r)))
           (database.VolatileCheckpoint_OpenDB E P vc g)
  | VcCloseDB => Ret (ADone, (database.VolatileCheckpoint_CloseDB vc, g))
  | VcSet h hash =>
      omap (fun vc' => (ADone, (vc', g)))
           (database.VolatileCheckpoint_Set vc h hash)
  | VcClearDB => omap (fun vc' => (ADone, (vc', g))) (database.ClearDB vc)
  end.

(** What can be seen of a state: the store behind the handle and the
    active network. *)
Definition view : Type := option leveldb.DB * chaincfg.Params.

Definition checkpoint_uc_view
  (s : checkpoint.UserCheckpoint * checkpoint.globals) : view :=
  (checkpoint.Ucdb (fst s), checkpoint.activeNetParams (snd s)).

Definition database_uc_view
  (s : database.UserCheckpoint * database.globals) : view :=
  (database.Ucdb (fst s), database.activeNetParams (snd s)).

Definition checkpoint_vc_view
  (s : checkpoint.VolatileCheckpoint * checkpoint.globals) : view :=
  (checkpoint.Vcdb (fst s), checkpoint.activeNetParams (snd s)).

Definition database_vc_view
  (s : database.VolatileCheckpoint * database.globals) : view :=
  (database.Vcdb (fst s), database.activeNetParams (snd s)).

(** The two packages read the same network selection: the go-flags
    parser and loadConfig succeed, package flag parses, and the three
    flags agree. *)
Definition same_selection (PC : checkpoint.Parsed) (PD : database.Parsed)
  : Prop :=
  (exists rem, checkpoint.loadConfig PC = inl (checkpoint.parsedCfg PC, rem)) /\
  database.flagExit PD = None /\
  checkpoint.TestNet4 (checkpoint.parsedCfg PC) = database.testnet PD /\
  checkpoint.RegressionTest (checkpoint.parsedCfg PC) = database.regtest PD /\
  checkpoint.SimNet (checkpoint.parsedCfg PC) = database.simnet PD.

(** An answer with what can be seen of the state after it. *)
Definition with_view {S : Type} (v : S -> view)
  (r : answer * S) : answer * view := (fst r, v (snd r)).

(** ** Heights of either sign *)

(** The place of a height in the byte order of the keys: the keys of
    negative heights come first, the farther from zero the later, and
    the keys of non-negative heights follow in numeric order. *)
Definition key_rank (h : Z) : Z := if h <? 0 then - h - 2 ^ 64 else h.

(** [r] is the element of [S] with the greatest rank, or 0 when [S] is
    empty. *)
Definition last_by_rank (S : list Z) (r : Z) : Prop :=
  match S with
  | [] => r = 0
  | _ => In r S /\ forall h, In h S -> key_rank h <= key_rank r
  end.

(** As [tracks], for 64-bit heights of either sign. *)
Definition tracks_int64 (db : leveldb.DB) (S : list Z) : Prop :=
  leveldb.readOnly db = false /\
  leveldb.sorted (leveldb.entries db) /\
  (forall k, In k (leveldb.keys db) <->
             exists h, In h S /\ k = fmt.Sprintf_020d h) /\
  Forall is_int64 S.

(** ** Histories of the other stores *)

(** A history of Set calls on a VolatileCheckpoint store. *)
Fixpoint apply_sets (hs : list (Z * string)) (vc : checkpoint.VolatileCheckpoint)
  : outcome checkpoint.VolatileCheckpoint :=
  match hs with
  | [] => Ret vc
  | (h, hash) :: hs' =>
      vc' <- checkpoint.VolatileCheckpoint_Set vc h hash ;;
      apply_sets hs' vc'
  end.




Definition revoked_db : leveldb.DB :=
  leveldb.mkDB [("main-mainnet", "true"); ("sub-mainnet", "false")] false.

(** ** What OpenDB reports *)

(** When OpenDB returns: it reports no error exactly when the store has a
    handle afterwards; a store that was open is left as it is; and an
    error it reports is the engine's error for the resolved path, the
    handle is then nil, and the network selected during the attempt stays
    selected. *)
Definition open_report {T G : Type} (S : NamespaceStore T G) (E : Env) : Prop :=
  forall s g err s' g',
    OpenDB s g = Ret (err, s', g') ->
    (err = None <-> exists db, handle s' = Some db) /\
    (forall db, handle s = Some db -> s' = s /\ g' = g) /\
    (forall e, err = Some e ->
       handle s = None /\ handle s' = None /\
       exists path, DbPath g = Ret (path, g') /\ OpenFile E path = inr e).

(** ** Histories of a singleton accessor *)

(** What happens around an accessor, in one goroutine: a call of the
    accessor, or a caller writing a new value of the store through a
    pointer it holds (as OpenDB and CloseDB do with the handle). *)
Inductive action (T : Type) : Type :=
| Call
| Through (p : nat) (v : T).

Arguments Call {T}.
Arguments Through {T} p v.

(** A history: the pointers the calls returned, in order, and the cell
    at the end. *)
Fixpoint run_accessor {T : Type}
  (get : runtime.cell T -> option nat * runtime.cell T)
  (acts : list (action T)) (c : runtime.cell T)
  : list (option nat) * runtime.cell T :=
  match acts with
  | [] => ([], c)
  | Call :: acts' =>
      let r := get c in
      let r' := run_accessor get acts' (snd r) in
      (fst r :: fst r', snd r')
  | Through p v :: acts' =>
      run_accessor get acts'
        (runtime.mkCell (runtime.store p v (runtime.heap c))
           (runtime.instance c) (runtime.once c) (runtime.slept c))
  end.

(** From a cell in which [once] has not run: every call returns the same
    non-nil pointer, to an object allocated by the first call with the
    zero value [zero]; the history sleeps one second and allocates one
    object when it holds a call, and nothing otherwise; and one more call
    at the end changes nothing. *)
Definition constructs_once {T : Type}
  (get : runtime.cell T -> option nat * runtime.cell T) (zero : T) : Prop :=
  forall acts c0,
    runtime.once c0 = false ->
    let p0 := List.length (runtime.heap c0) in
    let ps := fst (run_accessor get acts c0) in
    let c := snd (run_accessor get acts c0) in
    Forall (fun p => p = Some p0) ps /\
    nth_error (runtime.heap (snd (get c0))) p0 = Some zero /\
    (ps = [] ->
     runtime.slept c = runtime.slept c0 /\
     List.length (runtime.heap c) = p0) /\
    (ps <> [] ->
     runtime.slept c = runtime.slept c0 + 1000000000 /\
     List.length (runtime.heap c) = S p0 /\
     get c = (Some p0, c)).

(** The body shared by the accessors, for a store with zero value [zero]. *)
Definition accessor_shape {T : Type} (zero : T) (c : runtime.cell T)
  : option nat * runtime.cell T :=
  let c :=
    runtime.Do
      (fun c =>
         let c := runtime.Sleep (1 * runtime.Second) c in
         let '(p, c) := runtime.new zero c in
         runtime.set_instance (Some p) c)
      c in
  (runtime.instance c, c).

(** A history of Set calls on a DenyAddress store. *)
Fixpoint apply_denies (addresses : list string) (da : database.DenyAddress)
  : outcome database.DenyAddress :=
  match addresses with
  | [] => Ret da
  | a :: addresses' =>
      da' <- database.DenyAddress_Set da a ;;
      apply_denies addresses' da'
  end.

(** A store that holds the heights 50 and 100. *)
Definition two_heights_db : leveldb.DB :=
  leveldb.mkDB [("00000000000000000050", "b"); ("00000000000000000100", "a")]
               false.

(** A store with both alert keys of the sample test network, and the
    sample environment with an engine that opens that store. *)
Definition alert_db : leveldb.DB :=
  leveldb.mkDB [("main-testnet4", "false"); ("sub-testnet4", "false")] false.

Definition alert_env : Env :=
  mkEnv sample_TestNet4
        (sample_params "mainnet" 1)
        (sample_params "testnet4" sample_TestNet4)
        (sample_params "regtest" 2)
        (sample_params "simnet" 3)
        "/home/user/.monad"
        (fun _ => inl alert_db).

(** * Properties *)

(** ** The height keys *)

Example Sprintf_200 : fmt.Sprintf_020d 200 = "00000000000000000200".
Proof. reflexivity. Qed.

Example Sprintf_neg5 : fmt.Sprintf_020d (-5) = "-0000000000000000005".
Proof. reflexivity. Qed.

Example Sprintf_min : fmt.Sprintf_020d minInt64 = "-9223372036854775808".
Proof. reflexivity. Qed.

Example Sprintf_max : fmt.Sprintf_020d maxInt64 = "09223372036854775807".
Proof. reflexivity. Qed.

Example ParseInt_200 : strconv.ParseInt "00000000000000000200" = (200, None).
Proof. reflexivity. Qed.

Example ParseInt_neg5 : strconv.ParseInt "-0000000000000000005" = (-5, None).
Proof. reflexivity. Qed.

Example ParseInt_junk : strconv.ParseInt "0000000000000000012x" = (0, Some ErrSyntax).
Proof. reflexivity. Qed.

Example ParseInt_big :
  strconv.ParseInt "99999999999999999999" = (maxInt64, Some ErrRange).
Proof. reflexivity. Qed.

Section KeyEncoding.

Lemma fixed_length n : forall u, List.length (fixed n u) = n.
Proof.
  induction n as [|n IH]; intros u; simpl; trivial.
  rewrite length_app, IH; simpl; lia.
Qed.

Lemma repeat_snoc {A} (a : A) n : repeat a n ++ [a] = a :: repeat a n.
Proof. induction n; simpl; congruence. Qed.

Lemma fixed_zero n : fixed n 0 = repeat "0"%char n.
Proof.
  induction n as [|n IH]; simpl; trivial.
  change (0 / 10) with 0. rewrite IH. apply (repeat_snoc "0"%char).
Qed.

Lemma fixed_small n u :
  0 <= u < 10 -> fixed (S n) u = repeat "0"%char n ++ [fmt.digit u].
Proof.
  intros Hu. simpl.
  rewrite Z.div_small, Z.mod_small, fixed_zero by lia. reflexivity.
Qed.

(** The digit loop followed by zero padding writes the fixed-width
    digits; [k] rounds are enough below [10 ^ k]. *)
Lemma fmt_digits_fixed fuel :
  forall (k : nat) u buf,
    (1 <= k <= fuel)%nat -> 0 <= u < 10 ^ Z.of_nat k ->
    exists ds,
      fmt.fmt_digits fuel u buf = ds ++ buf /\
      (1 <= List.length ds <= k)%nat /\
      forall n, (List.length ds <= n)%nat ->
        repeat "0"%char (n - List.length ds) ++ ds = fixed n u.
Proof.
  induction fuel as [|fuel IH]; intros k u buf Hk Hu; [lia|].
  simpl fmt.fmt_digits. destruct (Z.leb_spec 10 u) as [Hge|Hlt].
  - destruct k as [|k]; [lia|].
    assert (Hk' : (1 <= k)%nat).
    { destruct k; [simpl in Hu; lia | lia]. }
    assert (Hdiv : 0 <= u / 10 < 10 ^ Z.of_nat k).
    { rewrite Nat2Z.inj_succ, Z.pow_succ_r in Hu by lia.
      split; [apply Z.div_pos; lia | apply Z.div_lt_upper_bound; lia]. }
    destruct (IH k (u / 10) (fmt.digit (u - u / 10 * 10) :: buf))
      as (ds & Heq & Hlen & Hpad); [lia | exact Hdiv |].
    exists (ds ++ [fmt.digit (u - u / 10 * 10)]). split; [|split].
    + rewrite Heq, <- app_assoc. reflexivity.
    + rewrite length_app; simpl; lia.
    + intros n Hn. rewrite length_app in Hn |- *. simpl in Hn |- *.
      destruct n as [|n]; [lia|].
      simpl fixed. rewrite <- (Hpad n) by lia.
      replace (S n - (List.length ds + 1))%nat
        with (n - List.length ds)%nat by lia.
      rewrite app_assoc. do 3 f_equal.
      rewrite Z.mod_eq by lia. lia.
  - exists [fmt.digit u]. split; [reflexivity|]. split; [simpl; lia|].
    intros n Hn. simpl in Hn. destruct n as [|n]; [lia|].
    rewrite fixed_small by lia. simpl List.length.
    replace (S n - 1)%nat with n by lia. reflexivity.
Qed.

Lemma fmtInteger_nonneg h :
  0 <= h < 10 ^ 20 -> fmt.fmtInteger_020d h = fixed 20 h.
Proof.
  intros Hh. unfold fmt.fmtInteger_020d.
  destruct (Z.ltb_spec h 0) as [?|_]; [lia|].
  destruct (fmt_digits_fixed 20 20 h []) as (ds & Heq & Hlen & Hpad);
    [lia | exact Hh |].
  rewrite Heq, app_nil_r. unfold fmt.zero_pad. rewrite Hpad by lia.
  unfold fmt.pad. rewrite fixed_length. reflexivity.
Qed.

Lemma fmtInteger_neg h :
  - 10 ^ 19 < h < 0 ->
  fmt.fmtInteger_020d h = "-"%char :: fixed 19 (- h).
Proof.
  intros Hh. unfold fmt.fmtInteger_020d.
  destruct (Z.ltb_spec h 0) as [_|?]; [|lia].
  rewrite Z.mod_small by lia.
  destruct (fmt_digits_fixed 20 19 (- h) []) as (ds & Heq & Hlen & Hpad);
    [lia | simpl Z.of_nat; lia |].
  rewrite Heq, app_nil_r. unfold fmt.zero_pad. rewrite Hpad by lia.
  unfold fmt.pad.
  change (List.length ("-"%char :: fixed 19 (- h)))
    with (S (List.length (fixed 19 (- h)))).
  rewrite fixed_length. reflexivity.
Qed.

(** *** Characters of digits *)

Lemma N_of_digit d :
  0 <= d < 10 -> Z.of_N (N_of_ascii (fmt.digit d)) = 48 + d.
Proof.
  intros Hd. unfold fmt.digit.
  rewrite N_ascii_embedding by lia. lia.
Qed.

Lemma digit_compare x y :
  0 <= x < 10 -> 0 <= y < 10 ->
  Ascii.compare (fmt.digit x) (fmt.digit y) = (x ?= y).
Proof.
  intros Hx Hy. unfold Ascii.compare.
  rewrite <- N2Z.inj_compare, !N_of_digit by assumption.
  apply Z.add_compare_mono_l.
Qed.

Lemma digit_val_digit d :
  0 <= d < 10 ->
  strconv.digit_val (Z.of_N (N_of_ascii (fmt.digit d))) = Some d.
Proof.
  intros Hd. rewrite N_of_digit by assumption. unfold strconv.digit_val.
  destruct (Z.leb_spec 48 (48 + d)); [|lia].
  destruct (Z.leb_spec (48 + d) 57); [|lia].
  cbn [andb]. f_equal. lia.
Qed.

Lemma digit_not_sign d :
  0 <= d < 10 ->
  Ascii.eqb (fmt.digit d) "+" = false /\ Ascii.eqb (fmt.digit d) "-" = false.
Proof.
  intros Hd.
  assert (Hn : forall c, Z.of_N (N_of_ascii c) < 48 ->
                 Ascii.eqb (fmt.digit d) c = false).
  { intros c Hc. apply Ascii.eqb_neq. intros Heq. subst c.
    rewrite N_of_digit in Hc; lia. }
  split; apply Hn; reflexivity.
Qed.

Lemma fixed_head n u :
  exists d l, 0 <= d < 10 /\ fixed (S n) u = fmt.digit d :: l.
Proof.
  revert u. induction n as [|n IH]; intros u.
  - exists (u mod 10), []. split; [apply Z.mod_pos_bound; lia | reflexivity].
  - destruct (IH (u / 10)) as (d & l & Hd & Heq).
    exists d, (l ++ [fmt.digit (u mod 10)]). split; [exact Hd|].
    change (fixed (S (S n)) u)
      with (fixed (S n) (u / 10) ++ [fmt.digit (u mod 10)]).
    rewrite Heq. reflexivity.
Qed.

(** *** Byte order of fixed-width digits *)

Lemma compare_snoc (a b : list ascii) x y :
  List.length a = List.length b ->
  String.compare (string_of_list_ascii (a ++ [x]))
                 (string_of_list_ascii (b ++ [y])) =
  match String.compare (string_of_list_ascii a) (string_of_list_ascii b) with
  | Eq => Ascii.compare x y
  | c => c
  end.
Proof.
  revert b. induction a as [|c a IH]; intros [|c' b] Hlen;
    try discriminate Hlen; simpl.
  - destruct (Ascii.compare x y); reflexivity.
  - injection Hlen as Hlen. rewrite (IH b Hlen).
    destruct (Ascii.compare c c'); reflexivity.
Qed.

Lemma fixed_compare n :
  forall u v, 0 <= u < 10 ^ Z.of_nat n -> 0 <= v < 10 ^ Z.of_nat n ->
    String.compare (string_of_list_ascii (fixed n u))
                   (string_of_list_ascii (fixed n v)) = (u ?= v).
Proof.
  induction n as [|n IH]; intros u v Hu Hv.
  - simpl in *. assert (u = 0) by lia. assert (v = 0) by lia. subst.
    reflexivity.
  - rewrite Nat2Z.inj_succ, Z.pow_succ_r in Hu, Hv by lia.
    simpl fixed. rewrite compare_snoc by (rewrite !fixed_length; reflexivity).
    rewrite IH;
      try (split; [apply Z.div_pos; lia | apply Z.div_lt_upper_bound; lia]).
    pose proof (Z.div_mod u 10 ltac:(lia)) as Eu.
    pose proof (Z.div_mod v 10 ltac:(lia)) as Ev.
    pose proof (Z.mod_pos_bound u 10 ltac:(lia)) as Bu.
    pose proof (Z.mod_pos_bound v 10 ltac:(lia)) as Bv.
    destruct (Z.compare_spec (u / 10) (v / 10)) as [Heq|Hlt|Hgt].
    + rewrite digit_compare by assumption.
      destruct (Z.compare_spec (u mod 10) (v mod 10));
        symmetry; [apply Z.compare_eq_iff | apply Z.compare_lt_iff
                  | apply Z.compare_gt_iff]; lia.
    + symmetry. apply Z.compare_lt_iff. lia.
    + symmetry. apply Z.compare_gt_iff. lia.
Qed.

(** *** Parsing fixed-width digits *)

Lemma ParseUint_loop_app (l1 l2 : list ascii) :
  forall n,
    strconv.ParseUint_loop (string_of_list_ascii (l1 ++ l2)) n =
    match strconv.ParseUint_loop (string_of_list_ascii l1) n with
    | (m, None) => strconv.ParseUint_loop (string_of_list_ascii l2) m
    | r => r
    end.
Proof.
  induction l1 as [|c l1 IH]; intros n; simpl; [reflexivity|].
  destruct (strconv.digit_val _) as [d|]; [|reflexivity].
  destruct (10 <=? d); [reflexivity|].
  destruct (strconv.cutoff <=? n); [reflexivity|].
  destruct (_ || _); [reflexivity|]. apply IH.
Qed.

Lemma ParseUint_loop_fixed n :
  forall acc u,
    0 <= acc -> 0 <= u < 10 ^ Z.of_nat n ->
    acc * 10 ^ Z.of_nat n + u <= strconv.maxVal ->
    strconv.ParseUint_loop (string_of_list_ascii (fixed n u)) acc =
    (acc * 10 ^ Z.of_nat n + u, None).
Proof.
  induction n as [|n IH]; intros acc u Hacc Hu Hmax.
  - simpl in *. f_equal. lia.
  - rewrite Nat2Z.inj_succ, Z.pow_succ_r in * by lia.
    pose proof (Z.div_mod u 10 ltac:(lia)) as Eu.
    pose proof (Z.mod_pos_bound u 10 ltac:(lia)) as Bu.
    assert (Hdiv : 0 <= u / 10 < 10 ^ Z.of_nat n).
    { split; [apply Z.div_pos; lia | apply Z.div_lt_upper_bound; lia]. }
    assert (Hp : 0 < 10 ^ Z.of_nat n) by (apply Z.pow_pos_nonneg; lia).
    simpl fixed. rewrite ParseUint_loop_app, IH; try assumption; [|nia].
    set (m := acc * 10 ^ Z.of_nat n + u / 10).
    assert (Hm : m * 10 + u mod 10 = acc * (10 * 10 ^ Z.of_nat n) + u)
      by (unfold m; lia).
    assert (Hm0 : 0 <= m) by (unfold m; nia).
    simpl. rewrite digit_val_digit by assumption.
    destruct (Z.leb_spec 10 (u mod 10)); [lia|].
    unfold strconv.maxVal in *.
    destruct (Z.leb_spec strconv.cutoff m) as [Hc|_].
    { unfold strconv.cutoff, maxUint64 in Hc. simpl in Hc. lia. }
    rewrite Z.mod_small by lia.
    destruct (Z.ltb_spec (m * 10 + u mod 10) (m * 10)); [lia|].
    destruct (Z.ltb_spec (2 ^ 64 - 1) (m * 10 + u mod 10)); [lia|].
    simpl. f_equal. exact Hm.
Qed.

Lemma ParseUint_fixed n u :
  0 <= u < 10 ^ Z.of_nat (S n) -> u <= strconv.maxVal ->
  strconv.ParseUint (string_of_list_ascii (fixed (S n) u)) = (u, None).
Proof.
  intros Hu Hmax.
  pose proof (ParseUint_loop_fixed (S n) 0 u (Z.le_refl 0) Hu) as Hloop.
  rewrite Z.mul_0_l, Z.add_0_l in Hloop. rewrite <- (Hloop Hmax).
  destruct (fixed_head n u) as (d & l & _ & ->). reflexivity.
Qed.

(** Decoding an encoded height gives the height back, without error. *)
Lemma ParseInt_Sprintf h :
  is_int64 h -> strconv.ParseInt (fmt.Sprintf_020d h) = (h, None).
Proof.
  unfold is_int64, minInt64, maxInt64. intros Hh. unfold fmt.Sprintf_020d.
  destruct (Z.lt_ge_cases h 0) as [Hneg|Hpos].
  - rewrite fmtInteger_neg by lia.
    change (string_of_list_ascii ("-"%char :: fixed 19 (- h)))
      with (String "-" (string_of_list_ascii (fixed 19 (- h)))).
    unfold strconv.ParseInt.
    change (Ascii.eqb "-" "+") with false. change (Ascii.eqb "-" "-") with true.
    cbv iota beta.
    rewrite ParseUint_fixed
      by (unfold strconv.maxVal; simpl Z.of_nat; lia).
    cbv iota beta. change (negb true) with false. cbn [andb].
    destruct (Z.ltb_spec (2 ^ 63) (- h)); [lia|].
    f_equal. lia.
  - rewrite fmtInteger_nonneg by lia.
    assert (HU : strconv.ParseUint (string_of_list_ascii (fixed 20 h))
                 = (h, None)).
    { apply ParseUint_fixed; unfold strconv.maxVal; simpl Z.of_nat; lia. }
    destruct (fixed_head 19 h) as (d & l & Hd & Heq).
    revert HU. rewrite Heq.
    change (string_of_list_ascii (fmt.digit d :: l))
      with (String (fmt.digit d) (string_of_list_ascii l)).
    intros HU. unfold strconv.ParseInt.
    destruct (digit_not_sign d Hd) as [-> ->].
    rewrite HU. cbv iota beta. change (negb false) with true. cbn [andb].
    destruct (Z.leb_spec (2 ^ 63) h); [lia|]. reflexivity.
Qed.

End KeyEncoding.

Lemma string_length_of_list (l : list ascii) :
  String.length (string_of_list_ascii l) = List.length l.
Proof. induction l; simpl; congruence. Qed.

Lemma Sprintf_length h :
  is_int64 h -> String.length (fmt.Sprintf_020d h) = 20%nat.
Proof.
  unfold is_int64, minInt64, maxInt64. intros Hh.
  unfold fmt.Sprintf_020d. rewrite string_length_of_list.
  destruct (Z.lt_ge_cases h 0).
  - rewrite fmtInteger_neg by lia.
    change (List.length ("-"%char :: fixed 19 (- h)))
      with (S (List.length (fixed 19 (- h)))).
    rewrite fixed_length. reflexivity.
  - rewrite fmtInteger_nonneg by lia. apply fixed_length.
Qed.

Lemma Sprintf_compare h1 h2 :
  0 <= h1 <= maxInt64 -> 0 <= h2 <= maxInt64 ->
  String.compare (fmt.Sprintf_020d h1) (fmt.Sprintf_020d h2) = (h1 ?= h2).
Proof.
  unfold maxInt64. intros H1 H2. unfold fmt.Sprintf_020d.
  rewrite !fmtInteger_nonneg by lia.
  apply fixed_compare; simpl Z.of_nat; lia.
Qed.

Lemma Sprintf_inj h1 h2 :
  is_int64 h1 -> is_int64 h2 ->
  fmt.Sprintf_020d h1 = fmt.Sprintf_020d h2 -> h1 = h2.
Proof.
  intros H1 H2 Heq.
  pose proof (ParseInt_Sprintf h1 H1) as P1.
  pose proof (ParseInt_Sprintf h2 H2) as P2.
  rewrite Heq in P1. congruence.
Qed.

(** C5 (as amended).  The key written by Add, Set and Delete for a height
    is 20 bytes long for every 64-bit signed height; for heights in
    [0, 2^63-1] the byte order of two keys is the numeric order of the
    heights; and decoding a key of such a height and encoding the result
    again gives the same key. *)
Theorem checkpoint_key_encoding (h h1 h2 : Z)
  (Hh : is_int64 h)
  (H1 : 0 <= h1 <= maxInt64) (H2 : 0 <= h2 <= maxInt64) :
  String.length (fmt.Sprintf_020d h) = 20%nat /\
  String.compare (fmt.Sprintf_020d h1) (fmt.Sprintf_020d h2) = (h1 ?= h2) /\
  fmt.Sprintf_020d (fst (strconv.ParseInt (fmt.Sprintf_020d h1)))
    = fmt.Sprintf_020d h1.
Proof.
  split; [apply Sprintf_length; exact Hh|].
  split; [apply Sprintf_compare; assumption|].
  rewrite ParseInt_Sprintf; [reflexivity|].
  unfold is_int64, minInt64 in *. lia.
Qed.

Lemma checkpoint_key_encoding_witness :
  String.length (fmt.Sprintf_020d (-5)) = 20%nat /\
  String.compare (fmt.Sprintf_020d 100) (fmt.Sprintf_020d 200) = (100 ?= 200) /\
  fmt.Sprintf_020d (fst (strconv.ParseInt (fmt.Sprintf_020d 100)))
    = fmt.Sprintf_020d 100.
Proof.
  apply (checkpoint_key_encoding (-5) 100 200);
    unfold is_int64, minInt64, maxInt64; lia.
Defined.

(** C5 (as stated) fails on negative heights: -2 and -1 are 64-bit signed
    heights with -2 < -1, yet the key of -2 sorts after the key of -1. *)
Lemma checkpoint_key_order_negative :
  is_int64 (-2) /\ is_int64 (-1) /\ (-2 ?= -1) = Lt /\
  fmt.Sprintf_020d (-2) = "-0000000000000000002" /\
  fmt.Sprintf_020d (-1) = "-0000000000000000001" /\
  String.compare (fmt.Sprintf_020d (-2)) (fmt.Sprintf_020d (-1)) = Gt.
Proof.
  unfold is_int64, minInt64, maxInt64.
  repeat split; try lia; try discriminate; reflexivity.
Qed.

(** ** The ordered store *)

Section OrderedStore.

Import leveldb.

Lemma compare_refl (a : string) : String.compare a a = Eq.
Proof. apply String_as_OT.cmp_eq. reflexivity. Qed.

Lemma compare_trans (a b c : string) :
  String.compare a b = Lt -> String.compare b c = Lt ->
  String.compare a c = Lt.
Proof.
  intros Hab Hbc. apply String_as_OT.cmp_lt.
  apply String_as_OT.lt_trans with b; apply String_as_OT.cmp_lt; assumption.
Qed.

Lemma compare_gt_lt (a b : string) :
  String.compare a b = Gt -> String.compare b a = Lt.
Proof.
  intros H. rewrite String.compare_antisym, H. reflexivity.
Qed.

Lemma put_keys m key value :
  forall k, In k (map fst (put m key value)) <-> k = key \/ In k (map fst m).
Proof.
  induction m as [|[k0 v0] m IH]; intros k; simpl.
  - intuition congruence.
  - destruct (String.compare key k0) eqn:Hc; simpl.
    + apply String.compare_eq_iff in Hc. subst k0. intuition congruence.
    + intuition congruence.
    + rewrite IH. intuition congruence.
Qed.

Lemma put_sorted m key value : sorted m -> sorted (put m key value).
Proof.
  induction m as [|[k0 v0] m IH]; simpl; intros Hs.
  - split; [intros ? []|exact I].
  - destruct Hs as [Hlt Hs].
    destruct (String.compare key k0) eqn:Hc; simpl.
    + apply String.compare_eq_iff in Hc. subst k0. split; assumption.
    + split; [|split; assumption].
      intros k' [<-|Hin]; [exact Hc|].
      apply compare_trans with k0; auto.
    + split; [|apply IH; exact Hs].
      intros k' Hin. apply put_keys in Hin. destruct Hin as [->|Hin].
      * apply compare_gt_lt. exact Hc.
      * apply Hlt. exact Hin.
Qed.

Lemma remove_keys m key :
  sorted m ->
  forall k, In k (map fst (remove m key)) <-> In k (map fst m) /\ k <> key.
Proof.
  induction m as [|[k0 v0] m IH]; simpl; intros Hs k.
  - intuition.
  - destruct Hs as [Hlt Hs].
    destruct (String.compare key k0) eqn:Hc; simpl.
    + apply String.compare_eq_iff in Hc. subst k0. split.
      * intros Hin. split; [right; exact Hin|].
        intros ->. specialize (Hlt _ Hin).
        rewrite compare_refl in Hlt. discriminate.
      * intros [[Heq|Hin] Hne]; [congruence | exact Hin].
    + split; [|tauto].
      intros Hin. split; [exact Hin|]. intros ->.
      destruct Hin as [<-|Hin].
      * rewrite compare_refl in Hc. discriminate.
      * specialize (Hlt _ Hin).
        pose proof (compare_trans _ _ _ Hc Hlt) as Hkk.
        rewrite compare_refl in Hkk. discriminate.
    + rewrite (IH Hs). split.
      * intros [<-|[Hin Hne]]; [|tauto].
        split; [left; reflexivity|]. intros ->.
        rewrite compare_refl in Hc. discriminate.
      * intros [[Heq|Hin] Hne]; [left; exact Heq | right; tauto].
Qed.

Lemma remove_sorted m key : sorted m -> sorted (remove m key).
Proof.
  induction m as [|[k0 v0] m IH]; simpl; intros Hs; [exact I|].
  destruct Hs as [Hlt Hs].
  destruct (String.compare key k0) eqn:Hc; simpl.
  - exact Hs.
  - split; assumption.
  - split; [|apply IH; exact Hs].
    intros k' Hin. apply (remove_keys m key Hs) in Hin. apply Hlt, Hin.
Qed.

Lemma get_put m key value :
  forall k, get (put m key value) k =
            if String.eqb k key then Some value else get m k.
Proof.
  induction m as [|[k0 v0] m IH]; intros k; simpl; [reflexivity|].
  destruct (String.compare key k0) eqn:Hc; simpl.
  - apply String.compare_eq_iff in Hc. subst k0.
    destruct (String.eqb k key); reflexivity.
  - reflexivity.
  - rewrite IH. destruct (String.eqb_spec k k0) as [->|_]; [|reflexivity].
    destruct (String.eqb_spec k0 key) as [->|_]; [|reflexivity].
    rewrite compare_refl in Hc. discriminate.
Qed.

Lemma get_None_keys m k : get m k = None <-> ~ In k (map fst m).
Proof.
  induction m as [|[k0 v0] m IH]; simpl; [tauto|].
  destruct (String.eqb_spec k k0) as [->|Hne].
  - split; [discriminate | intros H; exfalso; apply H; left; reflexivity].
  - rewrite IH. split; [intros H [Heq|Hin]; [congruence | tauto] | tauto].
Qed.

(** The last key of the iterator is the greatest key of the store. *)
Lemma Last_None m : Last m = None <-> m = [].
Proof.
  unfold Last. split.
  - destruct (rev m) as [|[k v] r] eqn:Hr; [|discriminate].
    intros _. apply (f_equal (@rev _)) in Hr. rewrite rev_involutive in Hr.
    exact Hr.
  - intros ->. reflexivity.
Qed.

Lemma Last_cons kv m :
  Last (kv :: m) = match m with [] => Some (fst kv) | _ => Last m end.
Proof.
  unfold Last. simpl. destruct m as [|kv' m]; [destruct kv; reflexivity|].
  destruct (rev (kv' :: m)) as [|[k v] r] eqn:Hr; [|reflexivity].
  apply (f_equal (@rev _)) in Hr. rewrite rev_involutive in Hr. discriminate.
Qed.

Lemma Last_greatest m :
  sorted m -> forall k, Last m = Some k ->
    In k (map fst m) /\
    forall k', In k' (map fst m) -> k' = k \/ String.compare k' k = Lt.
Proof.
  induction m as [|[k0 v0] m IH]; intros Hs k HL; [discriminate|].
  destruct Hs as [Hlt Hs]. rewrite Last_cons in HL.
  destruct m as [|kv' m'].
  - injection HL as <-. simpl. split; [tauto|]. intros k' [<-|[]]. tauto.
  - destruct (IH Hs k HL) as [Hin Hmax]. split; [right; exact Hin|].
    intros k' [<-|Hin']; [right; apply Hlt, Hin | apply Hmax, Hin'].
Qed.

End OrderedStore.

(** ** GetMaxCheckpointHeight *)

Section MaxHeight.

Import leveldb.

Lemma nonneg_int64 h : 0 <= h <= maxInt64 -> is_int64 h.
Proof. unfold is_int64, minInt64. lia. Qed.

Lemma in_remove_iff (h x : Z) (S : list Z) :
  In x (List.remove Z.eq_dec h S) <-> In x S /\ x <> h.
Proof.
  split; [apply in_remove | intros [? ?]; apply in_in_remove; assumption].
Qed.

Lemma Forall_remove (P : Z -> Prop) h S :
  Forall P S -> Forall P (List.remove Z.eq_dec h S).
Proof.
  rewrite !Forall_forall. intros H x Hx. apply in_remove_iff in Hx.
  apply H, Hx.
Qed.

Lemma tracks_empty : tracks empty_db [].
Proof.
  repeat split; simpl; try tauto; try constructor.
  intros (h & [] & _).
Qed.

Lemma tracks_Add db S h hash :
  tracks db S -> 0 <= h <= maxInt64 ->
  tracks (fst (Put db (fmt.Sprintf_020d h) hash))
         (h :: List.remove Z.eq_dec h S).
Proof.
  intros (Hrw & Hs & Hk & Hnn) Hh. unfold Put. rewrite Hrw. simpl.
  split; [reflexivity|]. split; [apply put_sorted, Hs|]. split.
  - intros k. unfold keys. simpl. rewrite put_keys. fold (keys db).
    rewrite Hk. split.
    + intros [->|(h' & Hin & ->)].
      * exists h. simpl. tauto.
      * destruct (Z.eq_dec h' h) as [->|Hne]; [exists h; simpl; tauto|].
        exists h'. split; [right; apply in_remove_iff; tauto | reflexivity].
    + intros (h' & [<-|Hin] & ->); [left; reflexivity|].
      apply in_remove_iff in Hin. right. exists h'. tauto.
  - constructor; [exact Hh | apply Forall_remove, Hnn].
Qed.

Lemma tracks_Delete db S h :
  tracks db S -> is_int64 h ->
  tracks (fst (Delete db (fmt.Sprintf_020d h))) (List.remove Z.eq_dec h S).
Proof.
  intros (Hrw & Hs & Hk & Hnn) Hh. unfold Delete. rewrite Hrw. simpl.
  split; [reflexivity|]. split; [apply remove_sorted, Hs|]. split.
  - intros k. unfold keys. simpl. rewrite (remove_keys _ _ Hs).
    fold (keys db). rewrite Hk. split.
    + intros [(h' & Hin & ->) Hne]. exists h'. split; [|reflexivity].
      apply in_remove_iff. split; [exact Hin | congruence].
    + intros (h' & Hin & ->). apply in_remove_iff in Hin.
      destruct Hin as [Hin Hne]. split; [exists h'; tauto|].
      intros Heq. apply Hne. apply Sprintf_inj; try assumption.
      apply nonneg_int64. rewrite Forall_forall in Hnn. apply Hnn, Hin.
  - apply Forall_remove, Hnn.
Qed.

Lemma apply_mutations_tracks ms :
  forall db S,
    tracks db S ->
    Forall (fun m => is_int64 (mutation_height m)) ms ->
    Forall added_nonneg ms ->
    exists db',
      apply_mutations ms (checkpoint.mkUserCheckpoint (Some db))
        = Ret (checkpoint.mkUserCheckpoint (Some db')) /\
      tracks db' (stored_heights ms S).
Proof.
  induction ms as [|m ms IH]; intros db S Ht Hint Hnn.
  - exists db. split; [reflexivity | exact Ht].
  - inversion Hint as [|? ? Hm Hint']; subst.
    inversion Hnn as [|? ? Hm' Hnn']; subst.
    destruct m as [h hash|h]; simpl in Hm, Hm'.
    + assert (Hh : 0 <= h <= maxInt64) by (unfold is_int64 in Hm; lia).
      pose proof (tracks_Add db S h hash Ht Hh) as Ht'.
      destruct (IH _ _ Ht' Hint' Hnn') as (db' & Hrun & Hfin).
      exists db'. split; [|exact Hfin].
      simpl. unfold checkpoint.Add. simpl.
      destruct (Put db (fmt.Sprintf_020d h) hash) as [db1 e]. exact Hrun.
    + pose proof (tracks_Delete db S h Ht Hm) as Ht'.
      destruct (IH _ _ Ht' Hint' Hnn') as (db' & Hrun & Hfin).
      exists db'. split; [|exact Hfin].
      simpl. unfold checkpoint.Delete. simpl.
      destruct (Delete db (fmt.Sprintf_020d h)) as [db1 e]. exact Hrun.
Qed.

Lemma GetMax_tracks db S :
  tracks db S ->
  exists r,
    checkpoint.GetMaxCheckpointHeight (checkpoint.mkUserCheckpoint (Some db))
      = Ret r /\ max_or_zero S r.
Proof.
  intros (Hrw & Hs & Hk & Hnn). unfold checkpoint.GetMaxCheckpointHeight.
  simpl. unfold NewIterator. rewrite Forall_forall in Hnn.
  destruct (Last (entries db)) as [k|] eqn:HL.
  - destruct (Last_greatest _ Hs _ HL) as [Hin Hmax].
    apply Hk in Hin. destruct Hin as (h0 & Hin0 & ->).
    exists h0. rewrite ParseInt_Sprintf by (apply nonneg_int64, Hnn, Hin0).
    split; [reflexivity|]. unfold max_or_zero.
    destruct S as [|x S']; [destruct Hin0|]. split; [exact Hin0|].
    intros h Hin.
    assert (Hkin : In (fmt.Sprintf_020d h) (keys db))
      by (apply Hk; exists h; tauto).
    destruct (Hmax _ Hkin) as [Heq|Hlt].
    + apply Sprintf_inj in Heq; try (apply nonneg_int64, Hnn; assumption).
      lia.
    + rewrite Sprintf_compare in Hlt by (apply Hnn; assumption).
      rewrite Z.compare_lt_iff in Hlt. lia.
  - exists 0. split; [reflexivity|]. apply Last_None in HL.
    destruct S as [|x S']; [reflexivity|]. exfalso.
    assert (Hkin : In (fmt.Sprintf_020d x) (keys db))
      by (apply Hk; exists x; simpl; tauto).
    unfold keys in Hkin. rewrite HL in Hkin. exact Hkin.
Qed.

End MaxHeight.

(** C3 (as amended).  After any history of Add and Delete calls on an
    open, writable, initially empty UserCheckpoint store, in which every
    inserted height is non-negative, every call returns and
    GetMaxCheckpointHeight returns the greatest height the history left in
    the store, or 0 when it left none. *)
Theorem GetMaxCheckpointHeight_max (ms : list mutation)
  (Hint : Forall (fun m => is_int64 (mutation_height m)) ms)
  (Hnn : Forall added_nonneg ms) :
  exists uc r,
    apply_mutations ms (checkpoint.mkUserCheckpoint (Some empty_db)) = Ret uc /\
    checkpoint.GetMaxCheckpointHeight uc = Ret r /\
    max_or_zero (stored_heights ms []) r.
Proof.
  destruct (apply_mutations_tracks ms empty_db [] tracks_empty Hint Hnn)
    as (db' & Hrun & Ht).
  destruct (GetMax_tracks _ _ Ht) as (r & Hr & Hmax).
  exists (checkpoint.mkUserCheckpoint (Some db')), r. tauto.
Qed.

Lemma GetMaxCheckpointHeight_max_witness :
  exists uc r,
    apply_mutations (scenario_100_50_200 ++ [MDelete 200])
      (checkpoint.mkUserCheckpoint (Some empty_db)) = Ret uc /\
    checkpoint.GetMaxCheckpointHeight uc = Ret r /\
    max_or_zero (stored_heights (scenario_100_50_200 ++ [MDelete 200]) []) r.
Proof.
  apply (GetMaxCheckpointHeight_max (scenario_100_50_200 ++ [MDelete 200]));
    repeat constructor; simpl; unfold is_int64, minInt64, maxInt64; lia.
Defined.

(** The scenario of the specification: heights 100, 50 and 200 with
    hashes "a", "b" and "c" give 200, and 100 once 200 is deleted. *)
Example GetMaxCheckpointHeight_scenario :
  (uc <- apply_mutations scenario_100_50_200
           (checkpoint.mkUserCheckpoint (Some empty_db)) ;;
   checkpoint.GetMaxCheckpointHeight uc) = Ret 200 /\
  (uc <- apply_mutations (scenario_100_50_200 ++ [MDelete 200])
           (checkpoint.mkUserCheckpoint (Some empty_db)) ;;
   checkpoint.GetMaxCheckpointHeight uc) = Ret 100.
Proof. split; reflexivity. Qed.

(** C3 (as stated) fails on negative heights: after Add(-1) and Add(-2)
    the store holds -1 and -2, whose maximum is -1, and
    GetMaxCheckpointHeight returns -2. *)
Lemma GetMaxCheckpointHeight_negative :
  is_int64 (-1) /\ is_int64 (-2) /\
  stored_heights [MAdd (-1) "a"; MAdd (-2) "b"] [] = [-2; -1] /\
  (uc <- apply_mutations [MAdd (-1) "a"; MAdd (-2) "b"]
           (checkpoint.mkUserCheckpoint (Some empty_db)) ;;
   checkpoint.GetMaxCheckpointHeight uc) = Ret (-2) /\
  -2 < -1.
Proof.
  unfold is_int64, minInt64, maxInt64.
  repeat split; try lia; try discriminate; reflexivity.
Qed.

(** ** Keys that do not decode *)

Section Malformed.

Lemma ParseUint_loop_error s :
  forall n v e,
    strconv.ParseUint_loop s n = (v, Some e) ->
    (e = ErrSyntax /\ v = 0) \/ (e = ErrRange /\ v = strconv.maxVal).
Proof.
  induction s as [|c s IH]; intros n v e; simpl.
  - discriminate.
  - destruct (strconv.digit_val _) as [d|]; [|intros [= <- <-]; tauto].
    destruct (10 <=? d); [intros [= <- <-]; tauto|].
    destruct (strconv.cutoff <=? n); [intros [= <- <-]; tauto|].
    destruct (_ || _); [intros [= <- <-]; tauto|]. apply IH.
Qed.

Lemma ParseUint_error s v e :
  strconv.ParseUint s = (v, Some e) ->
  (e = ErrSyntax /\ v = 0) \/ (e = ErrRange /\ v = strconv.maxVal).
Proof.
  destruct s as [|c s]; [intros [= <- <-]; tauto|].
  apply ParseUint_loop_error.
Qed.

(** A failed [ParseInt] yields 0 on a syntax error and the nearest
    bound on a range error. *)
Lemma ParseInt_error s v e :
  strconv.ParseInt s = (v, Some e) ->
  (e = ErrSyntax /\ v = 0) \/
  (e = ErrRange /\ (v = maxInt64 \/ v = minInt64)).
Proof.
  unfold strconv.ParseInt. destruct s as [|c0 rest]; [intros [= <- <-]; tauto|].
  destruct (if Ascii.eqb c0 "+" then (false, rest)
            else if Ascii.eqb c0 "-" then (true, rest)
            else (false, String c0 rest)) as [neg s1].
  destruct (strconv.ParseUint s1) as [un [err|]] eqn:HU.
  - destruct (ParseUint_error _ _ _ HU) as [[-> ->]|[-> ->]].
    + intros [= <- <-]. tauto.
    + destruct neg; simpl; intros [= <- <-]; right; split; trivial.
      * right. reflexivity.
      * left. reflexivity.
  - destruct (negb neg && (2 ^ 63 <=? un)).
    + intros [= <- <-]. right. split; trivial. left. reflexivity.
    + destruct (neg && (2 ^ 63 <? un)).
      * intros [= <- <-]. right. split; trivial. right. reflexivity.
      * discriminate.
Qed.

End Malformed.

(** C4 (as amended).  On an open store whose last key does not decode,
    GetMaxCheckpointHeight surfaces no error: it returns 0 when the key is
    syntactically malformed, and the nearest 64-bit bound (2^63-1 or
    -2^63) when the key is a decimal number out of range. *)
Theorem GetMaxCheckpointHeight_malformed
  (db : leveldb.DB) (key : string) (e : error)
  (Hlast : leveldb.Last (leveldb.NewIterator db) = Some key)
  (Herr : snd (strconv.ParseInt key) = Some e) :
  (e = ErrSyntax /\
   checkpoint.GetMaxCheckpointHeight (checkpoint.mkUserCheckpoint (Some db))
     = Ret 0 /\
   database.GetMaxCheckpointHeight (database.mkUserCheckpoint (Some db))
     = Ret 0) \/
  (e = ErrRange /\
   exists bound, (bound = maxInt64 \/ bound = minInt64) /\
     checkpoint.GetMaxCheckpointHeight (checkpoint.mkUserCheckpoint (Some db))
       = Ret bound /\
     database.GetMaxCheckpointHeight (database.mkUserCheckpoint (Some db))
       = Ret bound).
Proof.
  unfold checkpoint.GetMaxCheckpointHeight, database.GetMaxCheckpointHeight.
  simpl. rewrite Hlast.
  destruct (strconv.ParseInt key) as [v err] eqn:HP. simpl in Herr. subst err.
  destruct (ParseInt_error _ _ _ HP) as [[-> ->]|[-> Hv]].
  - left. repeat split; reflexivity.
  - right. split; [reflexivity|]. exists v. repeat split; trivial.
Qed.

Lemma GetMaxCheckpointHeight_malformed_witness :
  (ErrSyntax = ErrSyntax /\
   checkpoint.GetMaxCheckpointHeight (checkpoint.mkUserCheckpoint (Some junk_db))
     = Ret 0 /\
   database.GetMaxCheckpointHeight (database.mkUserCheckpoint (Some junk_db))
     = Ret 0) \/
  (ErrSyntax = ErrRange /\
   exists bound, (bound = maxInt64 \/ bound = minInt64) /\
     checkpoint.GetMaxCheckpointHeight
       (checkpoint.mkUserCheckpoint (Some junk_db)) = Ret bound /\
     database.GetMaxCheckpointHeight
       (database.mkUserCheckpoint (Some junk_db)) = Ret bound).
Proof.
  apply (GetMaxCheckpointHeight_malformed junk_db "0000000000000000012x");
    reflexivity.
Defined.

(** C4 (as stated) fails on a key that is out of range: the last key
    "99999999999999999999" does not decode as a 64-bit signed integer
    ([ParseInt] reports a range error), and GetMaxCheckpointHeight returns
    2^63-1, not 0. *)
Lemma GetMaxCheckpointHeight_out_of_range :
  leveldb.Last (leveldb.NewIterator overflow_db) = Some "99999999999999999999" /\
  snd (strconv.ParseInt "99999999999999999999") = Some ErrRange /\
  checkpoint.GetMaxCheckpointHeight (checkpoint.mkUserCheckpoint (Some overflow_db))
    = Ret 9223372036854775807 /\
  database.GetMaxCheckpointHeight (database.mkUserCheckpoint (Some overflow_db))
    = Ret 9223372036854775807.
Proof. repeat split; reflexivity. Qed.

(** ** The alert keys *)

Section AlertValidity.

Import leveldb.

Variable g : checkpoint.globals.

Let mainKey : string := chaincfg.AlertPubMainKey (checkpoint.activeNetParams g).
Let subKey : string := chaincfg.AlertPubSubKey (checkpoint.activeNetParams g).

Lemma Get_found db k v : get (entries db) k = Some v -> Get db k = (v, None).
Proof. unfold Get. intros ->. reflexivity. Qed.

Lemma Get_missing db k :
  get (entries db) k = None -> Get db k = ("", Some ErrNotFound).
Proof. unfold Get. intros ->. reflexivity. Qed.

Lemma Put_writable db k v :
  readOnly db = false -> Put db k v = (mkDB (put (entries db) k v) false, None).
Proof. unfold Put. intros ->. reflexivity. Qed.

(** IsValid answers true exactly when both keys are already stored with
    the value "false" when it is called; it then writes nothing. *)
Lemma IsValid_true_iff (db : DB) :
  (exists ak', checkpoint.IsValid (checkpoint.mkAlertKey (Some db)) g
               = Ret (true, ak')) <->
  get (entries db) mainKey = Some "false" /\
  get (entries db) subKey = Some "false".
Proof.
  unfold checkpoint.IsValid. simpl. fold mainKey subKey. split.
  - intros (ak' & H). unfold Get at 1 in H.
    destruct (get (entries db) mainKey) as [v1|] eqn:H1.
    + unfold Get in H.
      destruct (get (entries db) subKey) as [v2|] eqn:H2.
      * destruct (String.eqb_spec v1 "false") as [->|]; [|discriminate].
        destruct (String.eqb_spec v2 "false") as [->|]; [|discriminate].
        tauto.
      * rewrite andb_false_r in H. discriminate.
    + destruct (Get _ subKey) as [d2 e2]. simpl in H. discriminate.
  - intros [H1 H2]. rewrite (Get_found _ _ _ H1), (Get_found _ _ _ H2).
    simpl. eauto.
Qed.

(** After Set on a writable store the key reads "true". *)
Lemma AlertKey_Set_writes db key :
  readOnly db = false ->
  exists db',
    checkpoint.AlertKey_Set (checkpoint.mkAlertKey (Some db)) key
      = Ret (checkpoint.mkAlertKey (Some db')) /\
    get (entries db') key = Some "true" /\
    forall k, k <> key -> get (entries db') k = get (entries db) k.
Proof.
  intros Hrw. unfold checkpoint.AlertKey_Set. simpl.
  rewrite Put_writable by assumption.
  eexists. split; [reflexivity|]. simpl. split.
  - rewrite get_put, String.eqb_refl. reflexivity.
  - intros k Hk. rewrite get_put.
    destruct (String.eqb_spec k key); [contradiction | reflexivity].
Qed.

(** After Set(mainKey), and likewise after Set(subKey), on a writable
    store, IsValid answers false. *)
Lemma IsValid_after_Set db key :
  readOnly db = false -> key = mainKey \/ key = subKey ->
  exists db1 db2,
    checkpoint.AlertKey_Set (checkpoint.mkAlertKey (Some db)) key
      = Ret (checkpoint.mkAlertKey (Some db1)) /\
    checkpoint.IsValid (checkpoint.mkAlertKey (Some db1)) g
      = Ret (false, checkpoint.mkAlertKey (Some db2)).
Proof.
  intros Hrw Hkey.
  destruct (AlertKey_Set_writes db key Hrw) as (db1 & HS & Hk & _).
  exists db1.
  destruct (checkpoint.IsValid (checkpoint.mkAlertKey (Some db1)) g)
    as [[[] ak']| |] eqn:HV.
  - exfalso.
    assert (Ht : exists ak', checkpoint.IsValid
                   (checkpoint.mkAlertKey (Some db1)) g = Ret (true, ak'))
      by eauto.
    apply IsValid_true_iff in Ht. destruct Ht as [H1 H2].
    destruct Hkey; subst key; congruence.
  - destruct ak' as [[db2|]].
    + exists db2. tauto.
    + exfalso. revert HV. unfold checkpoint.IsValid. simpl.
      destruct (Get db1 _) as [d1 e1].
      destruct (Get _ _) as [d2 e2].
      destruct (_ && _); discriminate.
  - exfalso. revert HV. unfold checkpoint.IsValid. simpl.
    destruct (Get db1 _) as [d1 e1]. destruct (Get _ _) as [d2 e2].
    destruct (_ && _); discriminate.
  - exfalso. revert HV. unfold checkpoint.IsValid. simpl.
    destruct (Get db1 _) as [d1 e1]. destruct (Get _ _) as [d2 e2].
    destruct (_ && _); discriminate.
Qed.

(** C1, at the input where the code departs from it.  On an open,
    writable store in which neither alert key is present, IsValid writes
    "false" under both keys and answers false: the values it compares are
    the ones read before the keys were written. *)
Theorem IsValid_absent_keys (db : DB)
  (Hrw : readOnly db = false)
  (Hmain : get (entries db) mainKey = None)
  (Hsub : get (entries db) subKey = None) :
  exists db',
    checkpoint.IsValid (checkpoint.mkAlertKey (Some db)) g
      = Ret (false, checkpoint.mkAlertKey (Some db')) /\
    get (entries db') mainKey = Some "false" /\
    get (entries db') subKey = Some "false".
Proof.
  unfold checkpoint.IsValid. cbn [checkpoint.Akdb]. fold mainKey subKey.
  rewrite (Get_missing _ _ Hmain), Put_writable by assumption.
  cbn [fst].
  set (db1 := mkDB (put (entries db) mainKey "false") false).
  assert (Hm1 : get (entries db1) mainKey = Some "false").
  { unfold db1. cbn [entries]. rewrite get_put, String.eqb_refl. reflexivity. }
  change (String.eqb "" "false") with false. cbn [andb].
  destruct (String.eqb_spec subKey mainKey) as [Heq|Hne].
  - rewrite (Get_found db1 subKey "false") by (rewrite Heq; exact Hm1).
    exists db1. rewrite Heq. tauto.
  - assert (Hs1 : get (entries db1) subKey = None).
    { unfold db1. cbn [entries]. rewrite get_put.
      destruct (String.eqb_spec subKey mainKey); [contradiction | exact Hsub]. }
    rewrite (Get_missing _ _ Hs1), Put_writable by reflexivity. cbn [fst].
    eexists. split; [reflexivity|]. cbn [entries].
    rewrite !get_put, String.eqb_refl.
    destruct (String.eqb_spec mainKey subKey); tauto.
Qed.

End AlertValidity.

Lemma IsValid_absent_keys_witness :
  exists db',
    checkpoint.IsValid (checkpoint.mkAlertKey (Some empty_db)) sample_globals
      = Ret (false, checkpoint.mkAlertKey (Some db')) /\
    leveldb.get (leveldb.entries db') "main-mainnet" = Some "false" /\
    leveldb.get (leveldb.entries db') "sub-mainnet" = Some "false".
Proof.
  apply (IsValid_absent_keys sample_globals empty_db); reflexivity.
Defined.

(** On a fresh store the first IsValid answers false and the second,
    with nothing changed in between, answers true. *)
Example IsValid_twice :
  (r1 <- checkpoint.IsValid (checkpoint.mkAlertKey (Some empty_db))
           sample_globals ;;
   r2 <- checkpoint.IsValid (snd r1) sample_globals ;;
   Ret (fst r1, fst r2)) = Ret (false, true).
Proof. reflexivity. Qed.

(** ** Paths *)

(** [Clean] on the examples of the package documentation. *)
Example Clean_examples :
  map filepath.Clean
      [ "a/c"; "a//c"; "a/c/."; "a/c/b/.."; "/../a/c"; "/../a/b/../././/c";
        ""; "abc/"; "../../abc"; "abc/def/../../.."; "/abc/def/../../..";
        "abc/./../def"; "/"; "." ]
  = [ "a/c"; "a/c"; "a/c"; "a/c"; "/a/c"; "/a/c";
      "."; "abc"; "../../abc"; ".."; "/";
      "def"; "/"; "." ].
Proof. reflexivity. Qed.

Example Join_examples :
  map filepath.Join
      [ ["a"; "b"; "c"]; ["a"; "b/c"]; ["a/b"; "../../../xyz"]; [""; "a"];
        ["/home/user/.monad"; "data"]; []; [""; ""] ]
  = [ "a/b/c"; "a/b/c"; "../xyz"; "a"; "/home/user/.monad/data"; ""; "" ].
Proof. reflexivity. Qed.

Section Paths.

Import filepath.

Lemma append_assoc (a b c : string) :
  ((a ++ b) ++ c = a ++ (b ++ c))%string.
Proof. induction a as [|x a IH]; simpl; congruence. Qed.

Lemma split_nonempty s : split s <> [].
Proof.
  destruct s as [|c s]; simpl; [discriminate|].
  destruct (Ascii.eqb c "/"); [discriminate|].
  destruct (split s); discriminate.
Qed.

Lemma split_no_slash s : no_slash s = true -> split s = [s].
Proof.
  induction s as [|c s IH]; simpl; [reflexivity|].
  destruct (Ascii.eqb c "/"); simpl; [discriminate|].
  intros H. rewrite (IH H). reflexivity.
Qed.

Lemma split_app a b :
  split (a ++ "/" ++ b) = split a ++ split b.
Proof.
  change ("/" ++ b)%string with (String "/" b).
  induction a as [|c a IH]; simpl; [reflexivity|].
  destruct (Ascii.eqb c "/"); simpl; [rewrite IH; reflexivity|].
  rewrite IH. pose proof (split_nonempty a) as Hne.
  destruct (split a) as [|x xs]; [contradiction | reflexivity].
Qed.

Lemma concat_snoc sep l x :
  l <> [] ->
  String.concat sep (l ++ [x]) = (String.concat sep l ++ sep ++ x)%string.
Proof.
  induction l as [|h t IH]; intros Hne; [contradiction|].
  destruct t as [|h' t'].
  - reflexivity.
  - change (String.concat sep ((h :: h' :: t') ++ [x]))
      with (h ++ sep ++ String.concat sep ((h' :: t') ++ [x]))%string.
    rewrite IH by discriminate.
    change (String.concat sep (h :: h' :: t'))
      with (h ++ sep ++ String.concat sep (h' :: t'))%string.
    rewrite !append_assoc. reflexivity.
Qed.

Lemma clean_step_plain rooted out elem :
  plain elem = true -> clean_step rooted out elem = elem :: out.
Proof.
  unfold plain, clean_step. intros H.
  apply andb_prop in H. destruct H as [H _].
  apply andb_prop in H. destruct H as [H H3].
  apply andb_prop in H. destruct H as [H1 H2].
  apply negb_true_iff in H1, H2, H3. rewrite H1, H2, H3. reflexivity.
Qed.

Lemma plain_no_slash s : plain s = true -> no_slash s = true.
Proof. unfold plain. intros H. apply andb_prop in H. tauto. Qed.

Lemma isRooted_app a b : a <> "" -> isRooted (a ++ b) = isRooted a.
Proof. destruct a; [contradiction | reflexivity]. Qed.

Lemma Clean_nonempty p :
  p <> "" ->
  Clean p = render (isRooted p)
                   (rev (fold_left (clean_step (isRooted p)) (split p) [])).
Proof. destruct p; [contradiction | reflexivity]. Qed.

Lemma append_nonempty a b : a <> "" -> (a ++ b)%string <> "".
Proof. destruct a; [contradiction | discriminate]. Qed.

(** Cleaning a clean directory followed by two plain elements. *)
Lemma Clean_extend root a b :
  clean_dir root -> plain a = true -> plain b = true ->
  Clean (root ++ "/" ++ a ++ "/" ++ b) = (root ++ "/" ++ a ++ "/" ++ b)%string.
Proof.
  intros (Hc & Hdot & Hslash) Ha Hb.
  assert (Hne : root <> "") by (intros ->; apply Hdot; symmetry; exact Hc).
  assert (Hsnoc : forall l, l <> [] ->
            String.concat "/" (l ++ [a; b])
            = (String.concat "/" l ++ "/" ++ a ++ "/" ++ b)%string).
  { intros l0 Hl0. change (l0 ++ [a; b]) with (l0 ++ [a] ++ [b]).
    rewrite app_assoc, concat_snoc, concat_snoc by
      (try assumption; destruct l0; discriminate).
    rewrite !append_assoc. reflexivity. }
  rewrite Clean_nonempty by (apply append_nonempty; exact Hne).
  rewrite isRooted_app by exact Hne.
  rewrite !split_app, !fold_left_app.
  rewrite (split_no_slash a), (split_no_slash b)
    by (apply plain_no_slash; assumption).
  cbn [fold_left]. rewrite !clean_step_plain by assumption.
  cbn [rev]. rewrite <- app_assoc. cbn [app].
  rewrite Clean_nonempty in Hc by exact Hne.
  set (l := rev (fold_left (clean_step (isRooted root)) (split root) [])) in *.
  unfold render in *. destruct (isRooted root).
  - destruct l as [|x l'] eqn:Hl.
    + exfalso. apply Hslash. rewrite <- Hc. reflexivity.
    + rewrite <- Hl in *. rewrite Hsnoc by (rewrite Hl; discriminate).
      rewrite <- Hc. reflexivity.
  - destruct l as [|x l'] eqn:Hl.
    + exfalso. apply Hdot. rewrite <- Hc. reflexivity.
    + rewrite <- Hl in *.
      assert (Hl' : l <> []) by (rewrite Hl; discriminate).
      rewrite Hsnoc by exact Hl'. rewrite Hc.
      destruct (l ++ [a; b]) eqn:Happ; [|reflexivity].
      destruct l; [contradiction | discriminate].
Qed.

Lemma Join_extend root a b :
  clean_dir root -> plain a = true -> plain b = true ->
  Join [root; a; b] = (root ++ "/" ++ a ++ "/" ++ b)%string.
Proof.
  intros Hroot Ha Hb.
  assert (Hne : root <> "").
  { destruct Hroot as (Hc & Hdot & _). intros ->. apply Hdot.
    symmetry. exact Hc. }
  unfold Join. destruct (String.eqb_spec root ""); [contradiction|].
  change (String.concat "/" [root; a; b])
    with (root ++ "/" ++ a ++ "/" ++ b)%string.
  apply Clean_extend; assumption.
Qed.

(** *** The output of [Clean] is clean *)

Lemma all_dotdot_well_formed out :
  all_dotdot out = true -> well_formed false out = true.
Proof.
  induction out as [|c out IH]; simpl; [reflexivity|].
  intros H. apply andb_prop in H. destruct H as [-> H]. exact H.
Qed.

Lemma well_formed_suffix rooted xs ys :
  well_formed rooted (xs ++ ys) = true -> well_formed rooted ys = true.
Proof.
  induction xs as [|x xs IH]; simpl; [tauto|].
  destruct (String.eqb x "..").
  - intros H. apply andb_prop in H. destruct H as [Hr Hd].
    destruct rooted; [discriminate|].
    apply all_dotdot_well_formed. unfold all_dotdot in *.
    rewrite forallb_app in Hd. apply andb_prop in Hd. tauto.
  - intros H. apply andb_prop in H. apply IH. tauto.
Qed.

Lemma split_all_no_slash s : Forall (fun c => no_slash c = true) (split s).
Proof.
  induction s as [|c s IH]; simpl; [repeat constructor|].
  destruct (Ascii.eqb c "/") eqn:Hc; [constructor; [reflexivity | exact IH]|].
  destruct (split s) as [|x xs]; [repeat constructor; simpl; rewrite Hc; reflexivity|].
  inversion IH; subst. constructor; [simpl; rewrite Hc; assumption | assumption].
Qed.

Lemma clean_step_well_formed rooted out c :
  no_slash c = true -> well_formed rooted out = true ->
  well_formed rooted (clean_step rooted out c) = true.
Proof.
  intros Hc Hout. unfold clean_step.
  destruct (String.eqb c "") eqn:H1; [exact Hout|].
  destruct (String.eqb c ".") eqn:H2; [exact Hout|]. cbn [orb].
  destruct (String.eqb c "..") eqn:H3.
  - apply String.eqb_eq in H3. subst c.
    destruct out as [|top out'].
    + destruct rooted; reflexivity.
    + simpl in Hout. destruct (String.eqb top "..") eqn:Ht.
      * destruct rooted; [discriminate Hout|].
        simpl. rewrite Ht. exact Hout.
      * apply andb_prop in Hout. tauto.
  - simpl. rewrite H3. unfold plain. rewrite H1, H2, H3, Hc, Hout. reflexivity.
Qed.

Lemma fold_clean_step_well_formed rooted cs :
  forall out,
    Forall (fun c => no_slash c = true) cs ->
    well_formed rooted out = true ->
    well_formed rooted (fold_left (clean_step rooted) cs out) = true.
Proof.
  induction cs as [|c cs IH]; intros out Hcs Hout; [exact Hout|].
  inversion Hcs; subst. simpl. apply IH; [assumption|].
  apply clean_step_well_formed; assumption.
Qed.

(** On a well-formed list of elements [Clean] changes nothing. *)
Lemma fold_clean_step_fixed rooted cs :
  forall out,
    well_formed rooted (rev cs ++ out) = true ->
    fold_left (clean_step rooted) cs out = rev cs ++ out.
Proof.
  induction cs as [|c cs IH]; intros out Hwf; [reflexivity|].
  simpl in Hwf |- *. rewrite <- app_assoc in Hwf |- *. simpl in Hwf |- *.
  assert (Hc : well_formed rooted (c :: out) = true)
    by (apply well_formed_suffix in Hwf; exact Hwf).
  assert (Hstep : clean_step rooted out c = c :: out).
  { simpl in Hc. destruct (String.eqb c "..") eqn:H3.
    - apply String.eqb_eq in H3. subst c.
      apply andb_prop in Hc. destruct Hc as [Hr Hd].
      destruct rooted; [discriminate|]. unfold clean_step. simpl.
      destruct out as [|top out']; [reflexivity|].
      simpl in Hd. apply andb_prop in Hd. destruct Hd as [-> _]. reflexivity.
    - apply andb_prop in Hc. apply clean_step_plain. tauto. }
  rewrite Hstep. apply IH. exact Hwf.
Qed.

Lemma well_formed_elements rooted out :
  well_formed rooted out = true -> Forall element out.
Proof.
  induction out as [|c out IH]; simpl; [constructor|].
  destruct (String.eqb_spec c "..") as [->|Hne].
  - intros H. apply andb_prop in H. destruct H as [Hr Hd].
    destruct rooted; [discriminate|].
    constructor; [split; [discriminate | reflexivity]|].
    apply IH, all_dotdot_well_formed, Hd.
  - intros H. apply andb_prop in H. destruct H as [Hp Hw].
    constructor; [|apply IH, Hw]. split; [|apply plain_no_slash, Hp].
    intros ->. discriminate Hp.
Qed.

Lemma split_concat cs :
  cs <> [] -> Forall element cs -> split (String.concat "/" cs) = cs.
Proof.
  induction cs as [|c cs IH]; intros Hne Hcs; [contradiction|].
  inversion Hcs as [|? ? [_ Hc] Hcs']; subst.
  destruct cs as [|c' t]; [apply split_no_slash, Hc|].
  change (String.concat "/" (c :: c' :: t))
    with (c ++ "/" ++ String.concat "/" (c' :: t))%string.
  rewrite split_app, (split_no_slash c Hc), IH by (discriminate || assumption).
  reflexivity.
Qed.

Lemma concat_not_rooted cs :
  cs <> [] -> Forall element cs ->
  String.concat "/" cs <> "" /\ isRooted (String.concat "/" cs) = false.
Proof.
  intros Hne Hcs. destruct cs as [|c t]; [contradiction|].
  inversion Hcs as [|? ? [Hc0 Hc] _]; subst.
  destruct c as [|x c]; [contradiction|].
  simpl in Hc. apply andb_prop in Hc. destruct Hc as [Hx _].
  apply negb_true_iff in Hx.
  destruct t; simpl; rewrite Hx; split; (discriminate || reflexivity).
Qed.

Lemma render_clean rooted out :
  out <> [] -> well_formed rooted out = true ->
  clean_dir (render rooted (rev out)).
Proof.
  intros Hne Hwf.
  assert (Hcs : Forall element (rev out))
    by (apply Forall_rev, (well_formed_elements rooted), Hwf).
  assert (Hrev : rev out <> []).
  { intros H. apply (f_equal (@rev _)) in H. rewrite rev_involutive in H.
    contradiction. }
  destruct (concat_not_rooted _ Hrev Hcs) as [Hcne Hnr].
  assert (Hfix : fold_left (clean_step rooted) (rev out) [] = out).
  { rewrite fold_clean_step_fixed; rewrite rev_involutive, app_nil_r; trivial. }
  unfold clean_dir, render. destruct rooted.
  - split; [|split; [discriminate|]].
    + rewrite Clean_nonempty by discriminate.
      change (isRooted (String "/" (String.concat "/" (rev out)))) with true.
      change (split (String "/" (String.concat "/" (rev out))))
        with ("" :: split (String.concat "/" (rev out))).
      rewrite split_concat by assumption.
      cbn [fold_left]. change (clean_step true [] "") with (@nil string).
      rewrite Hfix. reflexivity.
    + intros [= H]. contradiction.
  - destruct (rev out) as [|c t] eqn:Hr; [contradiction|]. rewrite <- Hr in *.
    split; [|split].
    + rewrite Clean_nonempty by assumption.
      rewrite Hnr, split_concat, Hfix by assumption.
      unfold render. rewrite Hr. reflexivity.
    + intros H. rewrite Hr in Hcs. inversion Hcs as [|? ? [Hc0 Hc] Ht]; subst.
      rewrite Hr in H. destruct t as [|c' t'].
      * simpl in H. subst c.
        assert (Hout : out = ["."]).
        { apply (f_equal (@rev _)) in Hr. rewrite rev_involutive in Hr.
          exact Hr. }
        rewrite Hout in Hwf. discriminate Hwf.
      * change (String.concat "/" (c :: c' :: t'))
          with (c ++ "/" ++ String.concat "/" (c' :: t'))%string in H.
        destruct c as [|x c]; [contradiction|].
        simpl in H. injection H as _ H. destruct c; discriminate H.
    + intros H. rewrite H in Hnr. discriminate Hnr.
Qed.

(** Every result of [Clean] on a path that keeps an element is clean. *)
Lemma Clean_snoc_clean p a :
  p <> "" -> plain a = true -> clean_dir (Clean (p ++ "/" ++ a)).
Proof.
  intros Hp Ha.
  rewrite Clean_nonempty by (apply append_nonempty; exact Hp).
  rewrite isRooted_app by exact Hp.
  rewrite split_app, fold_left_app, (split_no_slash a)
    by (apply plain_no_slash; exact Ha).
  cbn [fold_left]. rewrite clean_step_plain by exact Ha.
  apply render_clean; [discriminate|].
  simpl. rewrite Ha.
  assert (Hd : String.eqb a ".." = false).
  { unfold plain in Ha. apply andb_prop in Ha. destruct Ha as [Ha _].
    apply andb_prop in Ha. destruct Ha as [_ Ha].
    apply negb_true_iff in Ha. exact Ha. }
  rewrite Hd. apply fold_clean_step_well_formed;
    [apply split_all_no_slash | reflexivity].
Qed.

(** The data directory [Join(home, "data")] is clean whatever the home
    directory is. *)
Lemma Join_data_clean home : clean_dir (Join [home; "data"]).
Proof.
  unfold Join. destruct (String.eqb_spec home "") as [->|Hne].
  - simpl. repeat split; discriminate || reflexivity.
  - change (String.concat "/" [home; "data"]) with (home ++ "/" ++ "data")%string.
    apply Clean_snoc_clean; [exact Hne | reflexivity].
Qed.

End Paths.

(** ** Network selection *)

Section PathResolution.

Variable E : Env.

Lemma checkpoint_GetDbPath_selected P sel g prefix :
  checkpoint_selects P sel ->
  (sel = MainNet -> checkpoint.activeNetParams g = MainNetParams E) ->
  checkpoint.GetDbPath E P prefix g =
  Ret (filepath.Join [checkpoint.defaultDataDir E;
                      checkpoint.netName E (selected_params E sel);
                      (prefix ++ "_" ++ checkpoint.defaultDbType)%string],
       checkpoint.mkGlobals (selected_params E sel)).
Proof.
  intros [Herr Hflags] Hg. unfold checkpoint.GetDbPath, checkpoint.loadConfig.
  destruct P as [[dd cf t r s] rem err]. destruct g as [a].
  simpl in Herr, Hflags, Hg |- *. subst err.
  destruct sel; injection Hflags as -> -> ->; simpl;
    try rewrite (Hg eq_refl); reflexivity.
Qed.

Lemma database_GetDbPath_selected P sel g prefix :
  database_selects P sel ->
  (sel = MainNet -> database.activeNetParams g = MainNetParams E) ->
  database.GetDbPath E P prefix g =
  Ret (filepath.Join [database.defaultDataDir E;
                      database.netName E (selected_params E sel);
                      (prefix ++ "_" ++ database.defaultDbType)%string],
       database.mkGlobals (selected_params E sel)).
Proof.
  intros [Herr Hflags] Hg. unfold database.GetDbPath.
  destruct P as [t r s err]. destruct g as [a].
  simpl in Herr, Hflags, Hg |- *. subst err.
  destruct sel; injection Hflags as -> -> ->; simpl;
    try rewrite (Hg eq_refl); reflexivity.
Qed.

Lemma Join_layout dir prefix :
  plain dir = true -> plain (prefix ++ "_" ++ "leveldb") = true ->
  filepath.Join [filepath.Join [AppDataDir E; "data"]; dir;
                 (prefix ++ "_" ++ "leveldb")%string]
  = layout (filepath.Join [AppDataDir E; "data"]) dir prefix "leveldb".
Proof.
  intros Hdir Hdb. unfold layout.
  apply Join_extend; [apply Join_data_clean | assumption | assumption].
Qed.

End PathResolution.

(** C7.  For every network selector, each path function of the two
    packages returns [<dataRoot>/<networkDirName>/<prefix>_leveldb], where
    the data root is [Join(AppDataDir, "data")] and the directory name is
    "testnet" for TestNet4 and the canonical name of the network
    otherwise; calling the function again gives the same path. *)
Theorem GetDbPath_layout (E : Env) (sel : NetworkSelector)
  (PC : checkpoint.Parsed) (PD : database.Parsed)
  (gc : checkpoint.globals) (gd : database.globals)
  (HPC : checkpoint_selects PC sel)
  (HPD : database_selects PD sel)
  (Hgc : sel = MainNet -> checkpoint.activeNetParams gc = MainNetParams E)
  (Hgd : sel = MainNet -> database.activeNetParams gd = MainNetParams E)
  (Hname : plain (networkDirName E sel) = true) :
  (chaincfg.Net (selected_params E sel) = wire_TestNet4 E ->
   networkDirName E sel = "testnet") /\
  (chaincfg.Net (selected_params E sel) <> wire_TestNet4 E ->
   networkDirName E sel = chaincfg.Name (selected_params E sel)) /\
  (forall prefix f, In (prefix, f) (checkpoint_path_functions E PC) ->
     exists g',
       f gc = Ret (layout (checkpoint.defaultDataDir E) (networkDirName E sel)
                          prefix "leveldb", g') /\
       f g' = f gc) /\
  (forall prefix f, In (prefix, f) (database_path_functions E PD) ->
     exists g',
       f gd = Ret (layout (database.defaultDataDir E) (networkDirName E sel)
                          prefix "leveldb", g') /\
       f g' = f gd).
Proof.
  split; [|split; [|split]].
  - unfold networkDirName. intros ->. rewrite Z.eqb_refl. reflexivity.
  - unfold networkDirName. intros Hne.
    destruct (Z.eqb_spec (chaincfg.Net (selected_params E sel)) (wire_TestNet4 E));
      [contradiction | reflexivity].
  - intros prefix f Hin.
    exists (checkpoint.mkGlobals (selected_params E sel)).
    assert (Hf : forall g,
              (sel = MainNet -> checkpoint.activeNetParams g = MainNetParams E) ->
              checkpoint.GetDbPath E PC prefix g =
              Ret (layout (checkpoint.defaultDataDir E) (networkDirName E sel)
                          prefix "leveldb",
                   checkpoint.mkGlobals (selected_params E sel))).
    { intros g Hg. rewrite (checkpoint_GetDbPath_selected E PC sel g prefix HPC Hg).
      f_equal. f_equal. apply (Join_layout E); [exact Hname|].
      simpl in Hin. destruct Hin as [H|[H|[H|[]]]]; injection H as <- _;
        reflexivity. }
    assert (Hfp : f = checkpoint.GetDbPath E PC prefix).
    { simpl in Hin. destruct Hin as [H|[H|[H|[]]]]; injection H as <- <-;
        reflexivity. }
    rewrite Hfp, (Hf gc Hgc). split; [reflexivity|].
    apply Hf. intros ->. reflexivity.
  - intros prefix f Hin.
    exists (database.mkGlobals (selected_params E sel)).
    assert (Hf : forall g,
              (sel = MainNet -> database.activeNetParams g = MainNetParams E) ->
              database.GetDbPath E PD prefix g =
              Ret (layout (database.defaultDataDir E) (networkDirName E sel)
                          prefix "leveldb",
                   database.mkGlobals (selected_params E sel))).
    { intros g Hg. rewrite (database_GetDbPath_selected E PD sel g prefix HPD Hg).
      f_equal. f_equal. apply (Join_layout E); [exact Hname|].
      simpl in Hin. destruct Hin as [H|[H|[H|[H|[]]]]]; injection H as <- _;
        reflexivity. }
    assert (Hfp : f = database.GetDbPath E PD prefix).
    { simpl in Hin. destruct Hin as [H|[H|[H|[H|[]]]]]; injection H as <- <-;
        reflexivity. }
    rewrite Hfp, (Hf gd Hgd). split; [reflexivity|].
    apply Hf. intros ->. reflexivity.
Qed.

Lemma GetDbPath_layout_witness :
  (chaincfg.Net (selected_params sample_env TestNet) = wire_TestNet4 sample_env ->
   networkDirName sample_env TestNet = "testnet") /\
  (chaincfg.Net (selected_params sample_env TestNet) <> wire_TestNet4 sample_env ->
   networkDirName sample_env TestNet
   = chaincfg.Name (selected_params sample_env TestNet)) /\
  (forall prefix f,
     In (prefix, f) (checkpoint_path_functions sample_env testnet_cfg) ->
     exists g',
       f (checkpoint.init sample_env)
       = Ret (layout (checkpoint.defaultDataDir sample_env)
                     (networkDirName sample_env TestNet) prefix "leveldb", g') /\
       f g' = f (checkpoint.init sample_env)) /\
  (forall prefix f,
     In (prefix, f) (database_path_functions sample_env testnet_flags) ->
     exists g',
       f (database.init sample_env)
       = Ret (layout (database.defaultDataDir sample_env)
                     (networkDirName sample_env TestNet) prefix "leveldb", g') /\
       f g' = f (database.init sample_env)).
Proof.
  apply (GetDbPath_layout sample_env TestNet testnet_cfg testnet_flags);
    try (split; reflexivity); try discriminate; reflexivity.
Defined.

(** The four directories of the sample environment on the test network. *)
Example database_paths_testnet :
  map (fun pf => snd pf (database.init sample_env))
      (database_path_functions sample_env testnet_flags)
  = map (fun path => Ret (path, database.mkGlobals (TestNet4Params sample_env)))
      [ "/home/user/.monad/data/testnet/usercheckpoints_leveldb";
        "/home/user/.monad/data/testnet/volatilecheckpoints_leveldb";
        "/home/user/.monad/data/testnet/alertkey_leveldb";
        "/home/user/.monad/data/testnet/denyaddress_leveldb" ].
Proof. reflexivity. Qed.

(** ** Mutually exclusive networks *)




(** ** ClearDB *)

(** On a writable store the loop of ClearDB deletes every key of the
    snapshot; on a read-only store the first delete fails and the loop
    stops with nothing deleted. *)
Lemma ClearDB_loop_writable (m : list (string * string)) :
  checkpoint.ClearDB_loop m (leveldb.mkDB m false) = leveldb.mkDB [] false.
Proof.
  induction m as [|[k v] m IH]; [reflexivity|].
  simpl. unfold leveldb.Delete. simpl. rewrite compare_refl. exact IH.
Qed.

Lemma ClearDB_empties (db : leveldb.DB) :
  leveldb.readOnly db = false ->
  checkpoint.ClearDB (checkpoint.mkVolatileCheckpoint (Some db))
  = Ret (checkpoint.mkVolatileCheckpoint (Some empty_db)).
Proof.
  destruct db as [m ro]. simpl. intros ->. unfold checkpoint.ClearDB. simpl.
  unfold leveldb.NewIterator. simpl. rewrite ClearDB_loop_writable.
  reflexivity.
Qed.


(** ** The life cycle of a handle *)

Ltac lifecycle_cases :=
  unfold lifecycle; cbn [handle OpenDB CloseDB DbPath
    checkpoint_UserCheckpoint checkpoint_VolatileCheckpoint checkpoint_AlertKey
    database_UserCheckpoint database_VolatileCheckpoint database_AlertKey
    database_DenyAddress];
  split; [|split; [|split]];
  [ intros [[?|]] g db H; [reflexivity | discriminate H]
  | intros [[?|]] H; [discriminate H | reflexivity]
  | intros [[?|]]; split; reflexivity
  | intros [[?|]] g path g' db Hpath Hopen; eexists;
    (split; [cbv beta delta
      [checkpoint.UserCheckpoint_OpenDB checkpoint.UserCheckpoint_CloseDB
       checkpoint.VolatileCheckpoint_OpenDB checkpoint.VolatileCheckpoint_CloseDB
       checkpoint.AlertKey_OpenDB checkpoint.AlertKey_CloseDB
       database.UserCheckpoint_OpenDB database.UserCheckpoint_CloseDB
       database.VolatileCheckpoint_OpenDB database.VolatileCheckpoint_CloseDB
       database.AlertKey_OpenDB database.AlertKey_CloseDB
       database.DenyAddress_OpenDB database.DenyAddress_CloseDB];
      cbn [checkpoint.Ucdb checkpoint.Vcdb checkpoint.Akdb
           database.Ucdb database.Vcdb database.Akdb database.Dadb];
      rewrite Hpath; cbn [bind]; rewrite Hopen; reflexivity
    | reflexivity ]) ].

(** C6.  For every store of the two packages: OpenDB on an open handle
    returns no error and leaves the store and its handle as they are;
    CloseDB on a store that is not open, also one that was never opened,
    changes nothing; CloseDB always leaves the handle nil and can be
    called again; and after a CloseDB, OpenDB opens the store again. *)
Theorem OpenDB_CloseDB_lifecycle
  (E : Env) (PC : checkpoint.Parsed) (PD : database.Parsed) :
  lifecycle (checkpoint_UserCheckpoint E PC) E /\
  lifecycle (checkpoint_VolatileCheckpoint E PC) E /\
  lifecycle (checkpoint_AlertKey E PC) E /\
  lifecycle (database_UserCheckpoint E PD) E /\
  lifecycle (database_VolatileCheckpoint E PD) E /\
  lifecycle (database_AlertKey E PD) E /\
  lifecycle (database_DenyAddress E PD) E.
Proof.
  split; [lifecycle_cases|].
  split; [lifecycle_cases|].
  split; [lifecycle_cases|].
  split; [lifecycle_cases|].
  split; [lifecycle_cases|].
  split; lifecycle_cases.
Qed.

(** ** Operations on a nil handle *)

(** C9.  With a nil handle every data operation of every store
    dereferences the nil pointer, whatever its arguments; CloseDB returns
    without touching the store and OpenDB never dereferences the handle. *)
Theorem nil_handle_dereference
  (E : Env) (PC : checkpoint.Parsed) (PD : database.Parsed)
  (gc : checkpoint.globals) (gd : database.globals)
  (height : Z) (hash key address : string) :
  ( checkpoint.Add (checkpoint.mkUserCheckpoint None) height hash = NilDeref /\
    checkpoint.Delete (checkpoint.mkUserCheckpoint None) height = NilDeref /\
    checkpoint.GetMaxCheckpointHeight (checkpoint.mkUserCheckpoint None)
      = NilDeref /\
    checkpoint.VolatileCheckpoint_Set (checkpoint.mkVolatileCheckpoint None)
      height hash = NilDeref /\
    checkpoint.ClearDB (checkpoint.mkVolatileCheckpoint None) = NilDeref /\
    checkpoint.AlertKey_Set (checkpoint.mkAlertKey None) key = NilDeref /\
    checkpoint.IsValid (checkpoint.mkAlertKey None) gc = NilDeref ) /\
  ( database.Add (database.mkUserCheckpoint None) height hash = NilDeref /\
    database.Delete (database.mkUserCheckpoint None) height = NilDeref /\
    database.GetMaxCheckpointHeight (database.mkUserCheckpoint None)
      = NilDeref /\
    database.VolatileCheckpoint_Set (database.mkVolatileCheckpoint None)
      height hash = NilDeref /\
    database.ClearDB (database.mkVolatileCheckpoint None) = NilDeref /\
    database.AlertKey_Set (database.mkAlertKey None) key = NilDeref /\
    database.IsValid (database.mkAlertKey None) gd = NilDeref /\
    database.DenyAddress_Set (database.mkDenyAddress None) address
      = NilDeref ) /\
  ( checkpoint.UserCheckpoint_CloseDB (checkpoint.mkUserCheckpoint None)
      = checkpoint.mkUserCheckpoint None /\
    checkpoint.VolatileCheckpoint_CloseDB (checkpoint.mkVolatileCheckpoint None)
      = checkpoint.mkVolatileCheckpoint None /\
    checkpoint.AlertKey_CloseDB (checkpoint.mkAlertKey None)
      = checkpoint.mkAlertKey None /\
    database.UserCheckpoint_CloseDB (database.mkUserCheckpoint None)
      = database.mkUserCheckpoint None /\
    database.VolatileCheckpoint_CloseDB (database.mkVolatileCheckpoint None)
      = database.mkVolatileCheckpoint None /\
    database.AlertKey_CloseDB (database.mkAlertKey None)
      = database.mkAlertKey None /\
    database.DenyAddress_CloseDB (database.mkDenyAddress None)
      = database.mkDenyAddress None ) /\
  ( checkpoint.UserCheckpoint_OpenDB E PC (checkpoint.mkUserCheckpoint None) gc
      <> NilDeref /\
    checkpoint.VolatileCheckpoint_OpenDB E PC
      (checkpoint.mkVolatileCheckpoint None) gc <> NilDeref /\
    checkpoint.AlertKey_OpenDB E PC (checkpoint.mkAlertKey None) gc
      <> NilDeref /\
    database.UserCheckpoint_OpenDB E PD (database.mkUserCheckpoint None) gd
      <> NilDeref /\
    database.VolatileCheckpoint_OpenDB E PD
      (database.mkVolatileCheckpoint None) gd <> NilDeref /\
    database.AlertKey_OpenDB E PD (database.mkAlertKey None) gd <> NilDeref /\
    database.DenyAddress_OpenDB E PD (database.mkDenyAddress None) gd
      <> NilDeref ).
Proof.
  assert (Hc : forall prefix,
             checkpoint.GetDbPath E PC prefix gc = Exit 1 \/
             exists r, checkpoint.GetDbPath E PC prefix gc = Ret r).
  { intros prefix. unfold checkpoint.GetDbPath.
    destruct (checkpoint.loadConfig PC) as [[cfg rem]|err]; eauto. }
  assert (Hd : forall prefix,
             (exists c, database.GetDbPath E PD prefix gd = Exit c) \/
             exists r, database.GetDbPath E PD prefix gd = Ret r).
  { intros prefix. unfold database.GetDbPath.
    destruct (database.flagExit PD); eauto. }
  split; [repeat split|]. split; [repeat split|]. split; [repeat split|].
  repeat apply conj.
  - unfold checkpoint.UserCheckpoint_OpenDB.
    change (checkpoint.GetUserCheckpointDbPath E PC)
      with (checkpoint.GetDbPath E PC checkpoint.userCheckpointDbNamePrefix).
    cbn [checkpoint.Ucdb].
    destruct (Hc checkpoint.userCheckpointDbNamePrefix) as [->|[[p g'] ->]];
      cbn [bind]; [discriminate|]. destruct (OpenFile E p); discriminate.
  - unfold checkpoint.VolatileCheckpoint_OpenDB.
    change (checkpoint.GetVolatileCheckpointDbPath E PC)
      with (checkpoint.GetDbPath E PC checkpoint.volatileCheckpointDbNamePrefix). cbn [checkpoint.Vcdb].
    destruct (Hc checkpoint.volatileCheckpointDbNamePrefix) as [->|[[p g'] ->]];
      cbn [bind]; [discriminate|]. destruct (OpenFile E p); discriminate.
  - unfold checkpoint.AlertKey_OpenDB.
    change (checkpoint.GetAlertKeyDbPath E PC)
      with (checkpoint.GetDbPath E PC checkpoint.alertKeyDbNamePrefix).
    cbn [checkpoint.Akdb].
    destruct (Hc checkpoint.alertKeyDbNamePrefix) as [->|[[p g'] ->]];
      cbn [bind]; [discriminate|]. destruct (OpenFile E p); discriminate.
  - unfold database.UserCheckpoint_OpenDB.
    change (database.GetUserCheckpointDbPath E PD)
      with (database.GetDbPath E PD database.userCheckpointDbNamePrefix).
    cbn [database.Ucdb].
    destruct (Hd database.userCheckpointDbNamePrefix) as [[c ->]|[[p g'] ->]];
      cbn [bind]; [discriminate|]. destruct (OpenFile E p); discriminate.
  - unfold database.VolatileCheckpoint_OpenDB.
    change (database.GetVolatileCheckpointDbPath E PD)
      with (database.GetDbPath E PD database.volatileCheckpointDbNamePrefix). cbn [database.Vcdb].
    destruct (Hd database.volatileCheckpointDbNamePrefix)
      as [[c ->]|[[p g'] ->]];
      cbn [bind]; [discriminate|]. destruct (OpenFile E p); discriminate.
  - unfold database.AlertKey_OpenDB.
    change (database.GetAlertKeyDbPath E PD)
      with (database.GetDbPath E PD database.alertKeyDbNamePrefix).
    cbn [database.Akdb].
    destruct (Hd database.alertKeyDbNamePrefix) as [[c ->]|[[p g'] ->]];
      cbn [bind]; [discriminate|]. destruct (OpenFile E p); discriminate.
  - unfold database.DenyAddress_OpenDB.
    change (database.GetDenyAddressDbPath E PD)
      with (database.GetDbPath E PD database.denyAddressDbNamePrefix).
    cbn [database.Dadb].
    destruct (Hd database.denyAddressDbNamePrefix) as [[c ->]|[[p g'] ->]];
      cbn [bind]; [discriminate|]. destruct (OpenFile E p); discriminate.
Qed.

(** ** The two packages side by side *)

Section Equivalence.

Variables (E : Env) (PC : checkpoint.Parsed) (PD : database.Parsed).
Hypothesis Hsel : same_selection PC PD.

Lemma GetDbPath_same prefix gc gd :
  checkpoint.activeNetParams gc = database.activeNetParams gd ->
  omap (fun r => (fst r, checkpoint.activeNetParams (snd r)))
       (checkpoint.GetDbPath E PC prefix gc)
  = omap (fun r => (fst r, database.activeNetParams (snd r)))
       (database.GetDbPath E PD prefix gd).
Proof.
  destruct Hsel as ([rem Hload] & Hexit & Ht & Hr & Hs).
  intros Hg. unfold checkpoint.GetDbPath, database.GetDbPath.
  rewrite Hload, Hexit, Ht, Hr, Hs.
  destruct gc as [a], gd as [b]. simpl in Hg. subst b.
  destruct (database.testnet PD), (database.regtest PD), (database.simnet PD);
    reflexivity.
Qed.

Lemma uc_step_same c sc sd :
  checkpoint_uc_view sc = database_uc_view sd ->
  omap (with_view checkpoint_uc_view) (checkpoint_uc_step E PC c sc)
  = omap (with_view database_uc_view) (database_uc_step E PD c sd).
Proof.
  destruct sc as [[hc] gc], sd as [[hd] gd]. unfold checkpoint_uc_view,
    database_uc_view. simpl. intros [= -> Hg].
  destruct c as [| |h hash|h|]; simpl.
  - unfold checkpoint.UserCheckpoint_OpenDB, database.UserCheckpoint_OpenDB.
    simpl. destruct hd as [db|]; simpl.
    + unfold with_view, checkpoint_uc_view, database_uc_view. simpl.
      rewrite Hg. reflexivity.
    + pose proof (GetDbPath_same checkpoint.userCheckpointDbNamePrefix
                    gc gd Hg) as Hp.
      change (checkpoint.GetUserCheckpointDbPath E PC)
        with (checkpoint.GetDbPath E PC checkpoint.userCheckpointDbNamePrefix).
      change (database.GetUserCheckpointDbPath E PD)
        with (database.GetDbPath E PD checkpoint.userCheckpointDbNamePrefix).
      destruct (checkpoint.GetDbPath E PC _ gc) as [[p1 g1]| |c1];
        destruct (database.GetDbPath E PD _ gd) as [[p2 g2]| |c2];
        simpl in Hp; try discriminate Hp; try reflexivity.
      * injection Hp as -> Hg'. simpl.
        destruct (OpenFile E p2); simpl; unfold with_view, checkpoint_uc_view,
          database_uc_view; simpl; rewrite Hg'; reflexivity.
      * injection Hp as ->. reflexivity.
  - unfold with_view, checkpoint_uc_view, database_uc_view. simpl.
    rewrite Hg. destruct hd; reflexivity.
  - unfold checkpoint.Add, database.Add. simpl. destruct hd as [db|]; simpl;
      [|reflexivity].
    destruct (leveldb.Put db _ hash) as [db' e]. simpl.
    unfold with_view, checkpoint_uc_view, database_uc_view. simpl.
    rewrite Hg. reflexivity.
  - unfold checkpoint.Delete, database.Delete. simpl.
    destruct hd as [db|]; simpl; [|reflexivity].
    destruct (leveldb.Delete db _) as [db' e]. simpl.
    unfold with_view, checkpoint_uc_view, database_uc_view. simpl.
    rewrite Hg. reflexivity.
  - unfold checkpoint.GetMaxCheckpointHeight, database.GetMaxCheckpointHeight.
    simpl. destruct hd as [db|]; simpl; [|reflexivity].
    destruct (leveldb.Last _); simpl;
      unfold with_view, checkpoint_uc_view, database_uc_view; simpl;
      rewrite Hg; reflexivity.
Qed.

Lemma ClearDB_loop_same iter :
  forall db, checkpoint.ClearDB_loop iter db = database.ClearDB_loop iter db.
Proof.
  induction iter as [|[k v] iter IH]; intros db; simpl; [reflexivity|].
  destruct (leveldb.Delete db k) as [db' [e|]]; [reflexivity | apply IH].
Qed.

Lemma vc_step_same c sc sd :
  checkpoint_vc_view sc = database_vc_view sd ->
  omap (with_view checkpoint_vc_view) (checkpoint_vc_step E PC c sc)
  = omap (with_view database_vc_view) (database_vc_step E PD c sd).
Proof.
  destruct sc as [[hc] gc], sd as [[hd] gd]. unfold checkpoint_vc_view,
    database_vc_view. simpl. intros [= -> Hg].
  destruct c as [| |h hash|]; simpl.
  - unfold checkpoint.VolatileCheckpoint_OpenDB,
      database.VolatileCheckpoint_OpenDB.
    simpl. destruct hd as [db|]; simpl.
    + unfold with_view, checkpoint_vc_view, database_vc_view. simpl.
      rewrite Hg. reflexivity.
    + pose proof (GetDbPath_same checkpoint.volatileCheckpointDbNamePrefix
                    gc gd Hg) as Hp.
      change (checkpoint.GetVolatileCheckpointDbPath E PC)
        with (checkpoint.GetDbPath E PC checkpoint.volatileCheckpointDbNamePrefix).
      change (database.GetVolatileCheckpointDbPath E PD)
        with (database.GetDbPath E PD checkpoint.volatileCheckpointDbNamePrefix).
      destruct (checkpoint.GetDbPath E PC _ gc) as [[p1 g1]| |c1];
        destruct (database.GetDbPath E PD _ gd) as [[p2 g2]| |c2];
        simpl in Hp; try discriminate Hp; try reflexivity.
      * injection Hp as -> Hg'. simpl.
        destruct (OpenFile E p2); simpl; unfold with_view, checkpoint_vc_view,
          database_vc_view; simpl; rewrite Hg'; reflexivity.
      * injection Hp as ->. reflexivity.
  - unfold with_view, checkpoint_vc_view, database_vc_view. simpl.
    rewrite Hg. destruct hd; reflexivity.
  - unfold checkpoint.VolatileCheckpoint_Set, database.VolatileCheckpoint_Set.
    simpl. destruct hd as [db|]; simpl; [|reflexivity].
    destruct (leveldb.Put db _ hash) as [db' e]. simpl.
    unfold with_view, checkpoint_vc_view, database_vc_view. simpl.
    rewrite Hg. reflexivity.
  - unfold checkpoint.ClearDB, database.ClearDB. simpl.
    destruct hd as [db|]; simpl; [|reflexivity].
    unfold with_view, checkpoint_vc_view, database_vc_view. simpl.
    rewrite Hg, ClearDB_loop_same. reflexivity.
Qed.

(** Steps that agree on related states give runs that agree. *)
Lemma run_same {C S1 S2 : Type}
  (step1 : C -> S1 -> outcome (answer * S1))
  (step2 : C -> S2 -> outcome (answer * S2))
  (v1 : S1 -> view) (v2 : S2 -> view) :
  (forall c s1 s2, v1 s1 = v2 s2 ->
     omap (with_view v1) (step1 c s1) = omap (with_view v2) (step2 c s2)) ->
  forall calls s1 s2, v1 s1 = v2 s2 ->
    omap (fun r => (fst r, v1 (snd r))) (run step1 calls s1)
    = omap (fun r => (fst r, v2 (snd r))) (run step2 calls s2).
Proof.
  intros Hstep calls. induction calls as [|c calls IH]; intros s1 s2 Hv.
  - simpl. rewrite Hv. reflexivity.
  - simpl. specialize (Hstep c s1 s2 Hv).
    destruct (step1 c s1) as [[a1 t1]| |c1];
      destruct (step2 c s2) as [[a2 t2]| |c2];
      simpl in Hstep; try discriminate Hstep;
      [| reflexivity | injection Hstep as ->; reflexivity].
    unfold with_view in Hstep. simpl in Hstep. injection Hstep as -> Hv'.
    simpl. specialize (IH t1 t2 Hv').
    destruct (run step1 calls t1) as [[as1 u1]| |d1];
      destruct (run step2 calls t2) as [[as2 u2]| |d2];
      simpl in IH; try discriminate IH; try exact IH.
    simpl. injection IH as -> ->. reflexivity.
Qed.

End Equivalence.

(** C10.  When the two packages read the same network selection, every
    sequence of UserCheckpoint calls (OpenDB, CloseDB, Add, Delete,
    GetMaxCheckpointHeight) and every sequence of VolatileCheckpoint calls
    (OpenDB, CloseDB, Set, ClearDB) gives, from the same store and active
    network, the same answers, the same final store and active network,
    and the same panic or exit, in package checkpoint and in package
    database. *)
Theorem packages_equivalent
  (E : Env) (PC : checkpoint.Parsed) (PD : database.Parsed)
  (Hsel : same_selection PC PD)
  (db : option leveldb.DB) (active : chaincfg.Params) :
  (forall calls : list uc_call,
     omap (fun r => (fst r, checkpoint_uc_view (snd r)))
          (run (checkpoint_uc_step E PC) calls
               (checkpoint.mkUserCheckpoint db, checkpoint.mkGlobals active))
     = omap (fun r => (fst r, database_uc_view (snd r)))
          (run (database_uc_step E PD) calls
               (database.mkUserCheckpoint db, database.mkGlobals active))) /\
  (forall calls : list vc_call,
     omap (fun r => (fst r, checkpoint_vc_view (snd r)))
          (run (checkpoint_vc_step E PC) calls
               (checkpoint.mkVolatileCheckpoint db, checkpoint.mkGlobals active))
     = omap (fun r => (fst r, database_vc_view (snd r)))
          (run (database_vc_step E PD) calls
               (database.mkVolatileCheckpoint db, database.mkGlobals active))).
Proof.
  split; intros calls.
  - apply run_same; [apply uc_step_same; exact Hsel | reflexivity].
  - apply run_same; [apply vc_step_same; exact Hsel | reflexivity].
Qed.

Lemma packages_equivalent_witness :
  (forall calls : list uc_call,
     omap (fun r => (fst r, checkpoint_uc_view (snd r)))
          (run (checkpoint_uc_step sample_env testnet_cfg) calls
               (checkpoint.mkUserCheckpoint None,
                checkpoint.mkGlobals (MainNetParams sample_env)))
     = omap (fun r => (fst r, database_uc_view (snd r)))
          (run (database_uc_step sample_env testnet_flags) calls
               (database.mkUserCheckpoint None,
                database.mkGlobals (MainNetParams sample_env)))) /\
  (forall calls : list vc_call,
     omap (fun r => (fst r, checkpoint_vc_view (snd r)))
          (run (checkpoint_vc_step sample_env testnet_cfg) calls
               (checkpoint.mkVolatileCheckpoint None,
                checkpoint.mkGlobals (MainNetParams sample_env)))
     = omap (fun r => (fst r, database_vc_view (snd r)))
          (run (database_vc_step sample_env testnet_flags) calls
               (database.mkVolatileCheckpoint None,
                database.mkGlobals (MainNetParams sample_env)))).
Proof.
  apply (packages_equivalent sample_env testnet_cfg testnet_flags).
  unfold same_selection. split; [exists []; reflexivity|].
  repeat split; reflexivity.
Defined.

(** A run of package checkpoint on the sample environment. *)
Example checkpoint_run_sample :
  omap (fun r => (fst r, checkpoint_uc_view (snd r)))
       (run (checkpoint_uc_step sample_env testnet_cfg)
            [UcOpenDB; UcAdd 100 "a"; UcAdd 50 "b";
             UcGetMaxCheckpointHeight; UcCloseDB; UcCloseDB]
            (checkpoint.mkUserCheckpoint None, checkpoint.init sample_env))
  = Ret ([AError None; ADone; ADone; AHeight 100; ADone; ADone],
         (None, TestNet4Params sample_env)).
Proof. reflexivity. Qed.

(** Where the two packages part: with testnet and simnet both selected,
    OpenDB of package checkpoint ends the process and OpenDB of package
    database opens the simnet store. *)
Remark OpenDB_differs_on_rejected_selection :
  checkpoint.UserCheckpoint_OpenDB sample_env testnet_simnet_cfg
    (checkpoint.mkUserCheckpoint None) (checkpoint.init sample_env) = Exit 1 /\
  database.UserCheckpoint_OpenDB sample_env testnet_simnet_flags
    (database.mkUserCheckpoint None) (database.init sample_env)
  = Ret (None, database.mkUserCheckpoint (Some empty_db),
         database.mkGlobals (SimNetParams sample_env)).
Proof. split; reflexivity. Qed.

(** * Further properties *)

(** ** Keys of heights of either sign *)

(** X1.  For every 64-bit signed height, also a negative one, decoding
    the key that Add, Set and Delete write gives the height back without
    error; so the keys of two different heights are different. *)
Theorem height_key_round_trip (h h' : Z)
  (Hh : is_int64 h) (Hh' : is_int64 h') :
  strconv.ParseInt (fmt.Sprintf_020d h) = (h, None) /\
  (fmt.Sprintf_020d h = fmt.Sprintf_020d h' -> h = h').
Proof.
  split; [apply ParseInt_Sprintf, Hh | apply Sprintf_inj; assumption].
Qed.

Lemma height_key_round_trip_witness :
  strconv.ParseInt (fmt.Sprintf_020d (-7)) = (-7, None) /\
  (fmt.Sprintf_020d (-7) = fmt.Sprintf_020d 7 -> -7 = 7).
Proof.
  apply (height_key_round_trip (-7) 7);
    unfold is_int64, minInt64, maxInt64; lia.
Defined.

Section SignedOrder.

Lemma minus_before_digit d s1 s2 :
  0 <= d < 10 ->
  String.compare (String "-" s1) (String (fmt.digit d) s2) = Lt.
Proof.
  intros Hd. simpl. unfold Ascii.compare.
  assert (H : (N_of_ascii "-" ?= N_of_ascii (fmt.digit d))%N = Lt).
  { rewrite <- N2Z.inj_compare, N_of_digit by assumption.
    change (Z.of_N (N_of_ascii "-")) with 45.
    apply Z.compare_lt_iff. lia. }
  rewrite H. reflexivity.
Qed.

Lemma Sprintf_compare_negative h1 h2 :
  minInt64 <= h1 < 0 -> minInt64 <= h2 < 0 ->
  String.compare (fmt.Sprintf_020d h1) (fmt.Sprintf_020d h2) = (- h1 ?= - h2).
Proof.
  unfold minInt64. intros H1 H2. unfold fmt.Sprintf_020d.
  rewrite !fmtInteger_neg by lia.
  change (string_of_list_ascii ("-"%char :: fixed 19 (- h1)))
    with (String "-" (string_of_list_ascii (fixed 19 (- h1)))).
  change (string_of_list_ascii ("-"%char :: fixed 19 (- h2)))
    with (String "-" (string_of_list_ascii (fixed 19 (- h2)))).
  change (String.compare (String "-" ?a) (String "-" ?b))
    with (String.compare a b).
  cbn [String.compare]. change (Ascii.compare "-" "-") with Eq. cbv iota.
  apply fixed_compare; simpl Z.of_nat; lia.
Qed.

Lemma Sprintf_compare_mixed h1 h2 :
  minInt64 <= h1 < 0 -> 0 <= h2 <= maxInt64 ->
  String.compare (fmt.Sprintf_020d h1) (fmt.Sprintf_020d h2) = Lt.
Proof.
  unfold minInt64, maxInt64. intros H1 H2. unfold fmt.Sprintf_020d.
  rewrite fmtInteger_neg, fmtInteger_nonneg by lia.
  destruct (fixed_head 19 h2) as (d & l & Hd & ->).
  apply minus_before_digit. exact Hd.
Qed.

Lemma Sprintf_compare_rank h1 h2 :
  is_int64 h1 -> is_int64 h2 ->
  String.compare (fmt.Sprintf_020d h1) (fmt.Sprintf_020d h2)
  = (key_rank h1 ?= key_rank h2).
Proof.
  unfold is_int64, key_rank. intros H1 H2.
  assert (Hmin : minInt64 = - 2 ^ 63) by reflexivity.
  assert (Hmax : maxInt64 = 2 ^ 63 - 1) by reflexivity.
  destruct (Z.ltb_spec h1 0); destruct (Z.ltb_spec h2 0).
  - rewrite Sprintf_compare_negative by lia.
    destruct (Z.compare_spec (- h1) (- h2)); symmetry;
      [apply Z.compare_eq_iff | apply Z.compare_lt_iff | apply Z.compare_gt_iff];
      lia.
  - rewrite Sprintf_compare_mixed by lia.
    symmetry. apply Z.compare_lt_iff. lia.
  - rewrite String.compare_antisym, Sprintf_compare_mixed by lia.
    symmetry. apply Z.compare_gt_iff. lia.
  - apply Sprintf_compare; lia.
Qed.

End SignedOrder.

(** X2.  For every two 64-bit signed heights the byte order of their
    keys is the order of their ranks: the keys of negative heights sort
    before the keys of non-negative heights, among negative heights the
    one farther from zero sorts later, and non-negative heights sort in
    numeric order. *)
Theorem height_key_order (h1 h2 : Z)
  (H1 : is_int64 h1) (H2 : is_int64 h2) :
  String.compare (fmt.Sprintf_020d h1) (fmt.Sprintf_020d h2)
  = (key_rank h1 ?= key_rank h2) /\
  (h1 < 0 <= h2 -> key_rank h1 < key_rank h2) /\
  (h1 < 0 -> h2 < 0 -> (key_rank h1 < key_rank h2 <-> h2 < h1)) /\
  (0 <= h1 -> 0 <= h2 -> (key_rank h1 < key_rank h2 <-> h1 < h2)).
Proof.
  split; [apply Sprintf_compare_rank; assumption|].
  unfold is_int64, key_rank in *.
  assert (Hmin : minInt64 = - 2 ^ 63) by reflexivity.
  assert (Hmax : maxInt64 = 2 ^ 63 - 1) by reflexivity.
  destruct (Z.ltb_spec h1 0); destruct (Z.ltb_spec h2 0);
    repeat split; intros; lia.
Qed.

Lemma height_key_order_witness :
  String.compare (fmt.Sprintf_020d (-3)) (fmt.Sprintf_020d (-10))
  = (key_rank (-3) ?= key_rank (-10)) /\
  (-3 < 0 <= -10 -> key_rank (-3) < key_rank (-10)) /\
  (-3 < 0 -> -10 < 0 -> (key_rank (-3) < key_rank (-10) <-> -10 < -3)) /\
  (0 <= -3 -> 0 <= -10 -> (key_rank (-3) < key_rank (-10) <-> -3 < -10)).
Proof.
  apply (height_key_order (-3) (-10));
    unfold is_int64, minInt64, maxInt64; lia.
Defined.

(** ** GetMaxCheckpointHeight over heights of either sign *)

Section MaxHeightSigned.

Import leveldb.

Lemma tracks_int64_empty : tracks_int64 empty_db [].
Proof.
  repeat split; simpl; try tauto; try constructor.
  intros (h & [] & _).
Qed.

Lemma tracks_int64_Add db S h hash :
  tracks_int64 db S -> is_int64 h ->
  tracks_int64 (fst (Put db (fmt.Sprintf_020d h) hash))
               (h :: List.remove Z.eq_dec h S).
Proof.
  intros (Hrw & Hs & Hk & Hnn) Hh. unfold Put. rewrite Hrw. simpl.
  split; [reflexivity|]. split; [apply put_sorted, Hs|]. split.
  - intros k. unfold keys. simpl. rewrite put_keys. fold (keys db).
    rewrite Hk. split.
    + intros [->|(h' & Hin & ->)].
      * exists h. simpl. tauto.
      * destruct (Z.eq_dec h' h) as [->|Hne]; [exists h; simpl; tauto|].
        exists h'. split; [right; apply in_remove_iff; tauto | reflexivity].
    + intros (h' & [<-|Hin] & ->); [left; reflexivity|].
      apply in_remove_iff in Hin. right. exists h'. tauto.
  - constructor; [exact Hh | apply Forall_remove, Hnn].
Qed.

Lemma tracks_int64_Delete db S h :
  tracks_int64 db S -> is_int64 h ->
  tracks_int64 (fst (Delete db (fmt.Sprintf_020d h)))
               (List.remove Z.eq_dec h S).
Proof.
  intros (Hrw & Hs & Hk & Hnn) Hh. unfold Delete. rewrite Hrw. simpl.
  split; [reflexivity|]. split; [apply remove_sorted, Hs|]. split.
  - intros k. unfold keys. simpl. rewrite (remove_keys _ _ Hs).
    fold (keys db). rewrite Hk. split.
    + intros [(h' & Hin & ->) Hne]. exists h'. split; [|reflexivity].
      apply in_remove_iff. split; [exact Hin | congruence].
    + intros (h' & Hin & ->). apply in_remove_iff in Hin.
      destruct Hin as [Hin Hne]. split; [exists h'; tauto|].
      intros Heq. apply Hne. apply Sprintf_inj; try assumption.
      rewrite Forall_forall in Hnn. apply Hnn, Hin.
  - apply Forall_remove, Hnn.
Qed.

Lemma apply_mutations_tracks_int64 ms :
  forall db S,
    tracks_int64 db S ->
    Forall (fun m => is_int64 (mutation_height m)) ms ->
    exists db',
      apply_mutations ms (checkpoint.mkUserCheckpoint (Some db))
        = Ret (checkpoint.mkUserCheckpoint (Some db')) /\
      tracks_int64 db' (stored_heights ms S).
Proof.
  induction ms as [|m ms IH]; intros db S Ht Hint.
  - exists db. split; [reflexivity | exact Ht].
  - inversion Hint as [|? ? Hm Hint']; subst.
    destruct m as [h hash|h]; simpl in Hm.
    + pose proof (tracks_int64_Add db S h hash Ht Hm) as Ht'.
      destruct (IH _ _ Ht' Hint') as (db' & Hrun & Hfin).
      exists db'. split; [|exact Hfin].
      simpl. unfold checkpoint.Add. simpl.
      destruct (Put db (fmt.Sprintf_020d h) hash) as [db1 e]. exact Hrun.
    + pose proof (tracks_int64_Delete db S h Ht Hm) as Ht'.
      destruct (IH _ _ Ht' Hint') as (db' & Hrun & Hfin).
      exists db'. split; [|exact Hfin].
      simpl. unfold checkpoint.Delete. simpl.
      destruct (Delete db (fmt.Sprintf_020d h)) as [db1 e]. exact Hrun.
Qed.

Lemma GetMax_tracks_int64 db S :
  tracks_int64 db S ->
  exists r,
    checkpoint.GetMaxCheckpointHeight (checkpoint.mkUserCheckpoint (Some db))
      = Ret r /\ last_by_rank S r.
Proof.
  intros (Hrw & Hs & Hk & Hnn). unfold checkpoint.GetMaxCheckpointHeight.
  simpl. unfold NewIterator. rewrite Forall_forall in Hnn.
  destruct (Last (entries db)) as [k|] eqn:HL.
  - destruct (Last_greatest _ Hs _ HL) as [Hin Hmax].
    apply Hk in Hin. destruct Hin as (h0 & Hin0 & ->).
    exists h0. rewrite ParseInt_Sprintf by (apply Hnn, Hin0).
    split; [reflexivity|]. unfold last_by_rank.
    destruct S as [|x S']; [destruct Hin0|]. split; [exact Hin0|].
    intros h Hin.
    assert (Hkin : In (fmt.Sprintf_020d h) (keys db))
      by (apply Hk; exists h; tauto).
    destruct (Hmax _ Hkin) as [Heq|Hlt].
    + apply Sprintf_inj in Heq; try (apply Hnn; assumption).
      subst. lia.
    + rewrite Sprintf_compare_rank in Hlt by (apply Hnn; assumption).
      rewrite Z.compare_lt_iff in Hlt. lia.
  - exists 0. split; [reflexivity|]. apply Last_None in HL.
    destruct S as [|x S']; [reflexivity|]. exfalso.
    assert (Hkin : In (fmt.Sprintf_020d x) (keys db))
      by (apply Hk; exists x; simpl; tauto).
    unfold keys in Hkin. rewrite HL in Hkin. exact Hkin.
Qed.

End MaxHeightSigned.

(** X3.  After any history of Add and Delete calls with 64-bit signed
    heights on an open, writable, initially empty UserCheckpoint store,
    GetMaxCheckpointHeight returns the stored height whose key is last:
    the greatest non-negative stored height when there is one, otherwise
    the stored negative height farthest from zero, and 0 when nothing is
    stored. *)
Theorem GetMaxCheckpointHeight_last_key (ms : list mutation)
  (Hint : Forall (fun m => is_int64 (mutation_height m)) ms) :
  exists uc r,
    apply_mutations ms (checkpoint.mkUserCheckpoint (Some empty_db)) = Ret uc /\
    checkpoint.GetMaxCheckpointHeight uc = Ret r /\
    last_by_rank (stored_heights ms []) r.
Proof.
  destruct (apply_mutations_tracks_int64 ms empty_db [] tracks_int64_empty Hint)
    as (db' & Hrun & Ht).
  destruct (GetMax_tracks_int64 _ _ Ht) as (r & Hr & Hmax).
  exists (checkpoint.mkUserCheckpoint (Some db')), r. tauto.
Qed.

Lemma GetMaxCheckpointHeight_last_key_witness :
  exists uc r,
    apply_mutations [MAdd (-1) "a"; MAdd (-2) "b"; MDelete 5]
      (checkpoint.mkUserCheckpoint (Some empty_db)) = Ret uc /\
    checkpoint.GetMaxCheckpointHeight uc = Ret r /\
    last_by_rank (stored_heights [MAdd (-1) "a"; MAdd (-2) "b"; MDelete 5] []) r.
Proof.
  apply (GetMaxCheckpointHeight_last_key
           [MAdd (-1) "a"; MAdd (-2) "b"; MDelete 5]);
    repeat constructor; simpl; unfold minInt64, maxInt64; lia.
Defined.

(** ** How the mutators compose *)

Section Composition.

Import leveldb.

Lemma put_put m key v v' : put (put m key v) key v' = put m key v'.
Proof.
  induction m as [|[k0 v0] m IH]; simpl.
  - rewrite compare_refl. reflexivity.
  - destruct (String.compare key k0) eqn:Hc; simpl.
    + rewrite compare_refl. reflexivity.
    + rewrite compare_refl. reflexivity.
    + rewrite Hc, IH. reflexivity.
Qed.

Lemma remove_put m key v : remove (put m key v) key = remove m key.
Proof.
  induction m as [|[k0 v0] m IH]; simpl.
  - rewrite compare_refl. reflexivity.
  - destruct (String.compare key k0) eqn:Hc; simpl.
    + rewrite compare_refl. reflexivity.
    + rewrite compare_refl. reflexivity.
    + rewrite Hc, IH. reflexivity.
Qed.

End Composition.

(** X4.  On every UserCheckpoint store, open or not, writable or not:
    Add(h, x) followed by Add(h, y) leaves what Add(h, y) alone leaves
    (the last hash wins and the height is stored once), and Add(h, x)
    followed by Delete(h) leaves what Delete(h) alone leaves. *)
Theorem Add_then_Add_or_Delete
  (uc : checkpoint.UserCheckpoint) (h : Z) (x y : string) :
  (uc' <- checkpoint.Add uc h x ;; checkpoint.Add uc' h y)
    = checkpoint.Add uc h y /\
  (uc' <- checkpoint.Add uc h x ;; checkpoint.Delete uc' h)
    = checkpoint.Delete uc h.
Proof.
  destruct uc as [[[m ro]|]]; [|split; reflexivity].
  unfold checkpoint.Add, checkpoint.Delete, leveldb.Put, leveldb.Delete.
  cbn [checkpoint.Ucdb leveldb.readOnly leveldb.entries].
  destruct ro; cbn [bind checkpoint.Ucdb leveldb.readOnly leveldb.entries];
    [split; reflexivity|].
  rewrite put_put, remove_put. split; reflexivity.
Qed.



(** ** ClearDB after Set *)

Section ClearAfterSet.

Import leveldb.

Lemma apply_sets_writable hs :
  forall m,
    exists m',
      apply_sets hs (checkpoint.mkVolatileCheckpoint (Some (mkDB m false)))
        = Ret (checkpoint.mkVolatileCheckpoint (Some (mkDB m' false))) /\
      (forall k, get m k <> None -> get m' k <> None) /\
      (forall h hash, In (h, hash) hs -> get m' (fmt.Sprintf_020d h) <> None).
Proof.
  induction hs as [|[h hash] hs IH]; intros m.
  - exists m. split; [reflexivity|]. split; [tauto | intros ? ? []].
  - destruct (IH (put m (fmt.Sprintf_020d h) hash)) as (m' & Hrun & Hkeep & Hset).
    exists m'. split; [exact Hrun|]. split.
    + intros k Hk. apply Hkeep. rewrite get_put.
      destruct (String.eqb k (fmt.Sprintf_020d h)); [discriminate | exact Hk].
    + intros h' hash' [[= <- <-]|Hin]; [|eapply Hset; exact Hin].
      apply Hkeep. rewrite get_put, String.eqb_refl. discriminate.
Qed.

End ClearAfterSet.

(** X6.  On an open, writable VolatileCheckpoint store, after any history
    of Set calls every height that was set is in the store, and ClearDB
    then leaves the store empty: iterating it finds no entry. *)
Theorem ClearDB_after_Set (db : leveldb.DB) (hs : list (Z * string))
  (Hrw : leveldb.readOnly db = false) :
  exists db',
    apply_sets hs (checkpoint.mkVolatileCheckpoint (Some db))
      = Ret (checkpoint.mkVolatileCheckpoint (Some db')) /\
    (forall h hash, In (h, hash) hs ->
       leveldb.get (leveldb.entries db') (fmt.Sprintf_020d h) <> None) /\
    checkpoint.ClearDB (checkpoint.mkVolatileCheckpoint (Some db'))
      = Ret (checkpoint.mkVolatileCheckpoint (Some empty_db)) /\
    leveldb.Last (leveldb.NewIterator empty_db) = None.
Proof.
  destruct db as [m ro]. simpl in Hrw. subst ro.
  destruct (apply_sets_writable hs m) as (m' & Hrun & _ & Hset).
  exists (leveldb.mkDB m' false). split; [exact Hrun|].
  split; [exact Hset|]. split; [apply ClearDB_empties; reflexivity | reflexivity].
Qed.

Lemma ClearDB_after_Set_witness :
  exists db',
    apply_sets [(100, "a"); (50, "b")]
      (checkpoint.mkVolatileCheckpoint (Some empty_db))
      = Ret (checkpoint.mkVolatileCheckpoint (Some db')) /\
    (forall h hash, In (h, hash) [(100, "a"); (50, "b")] ->
       leveldb.get (leveldb.entries db') (fmt.Sprintf_020d h) <> None) /\
    checkpoint.ClearDB (checkpoint.mkVolatileCheckpoint (Some db'))
      = Ret (checkpoint.mkVolatileCheckpoint (Some empty_db)) /\
    leveldb.Last (leveldb.NewIterator empty_db) = None.
Proof.
  apply (ClearDB_after_Set empty_db [(100, "a"); (50, "b")]). reflexivity.
Defined.

(** ** Revocation of an alert key *)

Section Revocation.

Import leveldb.

Variable g : checkpoint.globals.

Let mainKey : string := chaincfg.AlertPubMainKey (checkpoint.activeNetParams g).
Let subKey : string := chaincfg.AlertPubSubKey (checkpoint.activeNetParams g).





End Revocation.



(** ** What IsValid reads and writes *)

Section Materialization.

Import leveldb.

Lemma IsValid_present g db v1 v2 :
  get (entries db) (chaincfg.AlertPubMainKey (checkpoint.activeNetParams g))
    = Some v1 ->
  get (entries db) (chaincfg.AlertPubSubKey (checkpoint.activeNetParams g))
    = Some v2 ->
  checkpoint.IsValid (checkpoint.mkAlertKey (Some db)) g
  = Ret (String.eqb v1 "false" && String.eqb v2 "false",
         checkpoint.mkAlertKey (Some db)).
Proof.
  intros H1 H2. unfold checkpoint.IsValid. cbn [checkpoint.Akdb].
  rewrite (Get_found _ _ _ H1), (Get_found _ _ _ H2).
  destruct (_ && _); reflexivity.
Qed.

Lemma database_IsValid_present g db v1 v2 :
  get (entries db) (chaincfg.AlertPubMainKey (database.activeNetParams g))
    = Some v1 ->
  get (entries db) (chaincfg.AlertPubSubKey (database.activeNetParams g))
    = Some v2 ->
  database.IsValid (database.mkAlertKey (Some db)) g
  = Ret (String.eqb v1 "false" && String.eqb v2 "false",
         database.mkAlertKey (Some db)).
Proof.
  intros H1 H2. unfold database.IsValid. cbn [database.Akdb].
  rewrite (Get_found _ _ _ H1), (Get_found _ _ _ H2).
  destruct (_ && _); reflexivity.
Qed.


End Materialization.



(** X9.  In both packages, when the two alert keys of the active network
    are stored, IsValid writes nothing and answers true exactly when both
    stored values are the string "false"; any other stored value, "true"
    included, gives false. *)
Theorem IsValid_reads_both_keys
  (gc : checkpoint.globals) (gd : database.globals) (db : leveldb.DB)
  (v1 v2 : string)
  (Hsame : checkpoint.activeNetParams gc = database.activeNetParams gd)
  (Hmain : leveldb.get (leveldb.entries db)
             (chaincfg.AlertPubMainKey (checkpoint.activeNetParams gc))
           = Some v1)
  (Hsub : leveldb.get (leveldb.entries db)
            (chaincfg.AlertPubSubKey (checkpoint.activeNetParams gc))
          = Some v2) :
  exists b,
    checkpoint.IsValid (checkpoint.mkAlertKey (Some db)) gc
      = Ret (b, checkpoint.mkAlertKey (Some db)) /\
    database.IsValid (database.mkAlertKey (Some db)) gd
      = Ret (b, database.mkAlertKey (Some db)) /\
    (b = true <-> v1 = "false" /\ v2 = "false").
Proof.
  exists (String.eqb v1 "false" && String.eqb v2 "false").
  split; [apply IsValid_present; assumption|].
  split; [apply database_IsValid_present; rewrite <- Hsame; assumption|].
  rewrite andb_true_iff, !String.eqb_eq. tauto.
Qed.

Lemma IsValid_reads_both_keys_witness :
  exists b,
    checkpoint.IsValid (checkpoint.mkAlertKey (Some revoked_db)) sample_globals
      = Ret (b, checkpoint.mkAlertKey (Some revoked_db)) /\
    database.IsValid (database.mkAlertKey (Some revoked_db))
      (database.init sample_env)
      = Ret (b, database.mkAlertKey (Some revoked_db)) /\
    (b = true <-> "true" = "false" /\ "false" = "false").
Proof.
  apply (IsValid_reads_both_keys sample_globals (database.init sample_env)
           revoked_db "true" "false"); reflexivity.
Defined.

(** ** What OpenDB reports *)

(** The shape shared by the seven OpenDB methods. *)
Lemma open_report_shape {T G : Type} (S : NamespaceStore T G) (E : Env)
  (mk : option leveldb.DB -> T) :
  (forall h, handle (mk h) = h) ->
  (forall s g,
     OpenDB s g =
     match handle s with
     | Some _ => Ret (None, s, g)
     | None =>
         r <- DbPath g ;;
         match OpenFile E (fst r) with
         | inl db => Ret (None, mk (Some db), snd r)
         | inr err => Ret (Some err, mk None, snd r)
         end
     end) ->
  open_report S E.
Proof.
  intros Hmk Hopen s g err s' g'. rewrite Hopen.
  destruct (handle s) as [db0|] eqn:Hs.
  - intros [= <- <- <-]. split; [|split].
    + split; [intros _; exists db0; exact Hs | reflexivity].
    + intros db _. split; reflexivity.
    + intros e [=].
  - destruct (DbPath g) as [[path g1]| |c] eqn:Hpath; cbn [bind fst snd];
      [|discriminate|discriminate].
    destruct (OpenFile E path) as [db|e0] eqn:Hfile; intros [= <- <- <-].
    + split; [|split].
      * split; [intros _; exists db; apply Hmk | reflexivity].
      * intros db1 [=].
      * intros e [=].
    + split; [|split].
      * split; [discriminate|]. intros [db Hdb]. rewrite Hmk in Hdb.
        discriminate.
      * intros db1 [=].
      * intros e [= <-]. split; [reflexivity|]. split; [apply Hmk|].
        exists path. split; [reflexivity | exact Hfile].
Qed.

Ltac open_report_cases mk :=
  apply (open_report_shape _ _ mk); [reflexivity|];
  intros [[db|]] g; cbn; [reflexivity|];
  match goal with
  | |- context [bind ?m _] => destruct m as [[path g1]| |c]; reflexivity
  end.

(** X10.  For every store of the two packages, when OpenDB returns: the
    error is nil exactly when the store has a handle afterwards; a store
    that was already open is untouched; and a non-nil error is the error
    the engine gave for the resolved path, the handle is then nil, and the
    network selected while resolving the path stays selected. *)
Theorem OpenDB_reports_the_engine
  (E : Env) (PC : checkpoint.Parsed) (PD : database.Parsed) :
  open_report (checkpoint_UserCheckpoint E PC) E /\
  open_report (checkpoint_VolatileCheckpoint E PC) E /\
  open_report (checkpoint_AlertKey E PC) E /\
  open_report (database_UserCheckpoint E PD) E /\
  open_report (database_VolatileCheckpoint E PD) E /\
  open_report (database_AlertKey E PD) E /\
  open_report (database_DenyAddress E PD) E.
Proof.
  split; [open_report_cases checkpoint.mkUserCheckpoint|].
  split; [open_report_cases checkpoint.mkVolatileCheckpoint|].
  split; [open_report_cases checkpoint.mkAlertKey|].
  split; [open_report_cases database.mkUserCheckpoint|].
  split; [open_report_cases database.mkVolatileCheckpoint|].
  split; [open_report_cases database.mkAlertKey|].
  open_report_cases database.mkDenyAddress.
Qed.

(** ** The form of the resolved paths *)

Section ResolvedPaths.

Import filepath.

Lemma Ret_pair_inj {A B : Type} (a c : A) (b d : B) :
  Ret (a, b) = Ret (c, d) -> a = c /\ b = d.
Proof. intros [= -> ->]. split; reflexivity. Qed.

Lemma Clean_not_empty p : Clean p <> "".
Proof.
  destruct (String.eqb_spec p "") as [->|Hne]; [discriminate|].
  rewrite Clean_nonempty by exact Hne. unfold render.
  set (out := fold_left (clean_step (isRooted p)) (split p) []).
  assert (Hwf : well_formed (isRooted p) out = true)
    by (apply fold_clean_step_well_formed;
        [apply split_all_no_slash | reflexivity]).
  destruct (isRooted p); [discriminate|].
  destruct (rev out) as [|c t] eqn:Hr; [discriminate|]. rewrite <- Hr.
  apply concat_not_rooted; [rewrite Hr; discriminate|].
  apply Forall_rev, (well_formed_elements false), Hwf.
Qed.

(** [Clean] changes nothing in what it returns. *)
Lemma Clean_idempotent p : Clean (Clean p) = Clean p.
Proof.
  destruct (String.eqb_spec p "") as [->|Hne]; [reflexivity|].
  rewrite (Clean_nonempty p) by exact Hne.
  set (out := fold_left (clean_step (isRooted p)) (split p) []).
  assert (Hwf : well_formed (isRooted p) out = true)
    by (apply fold_clean_step_well_formed;
        [apply split_all_no_slash | reflexivity]).
  destruct out as [|c out'] eqn:Hout.
  - destruct (isRooted p); reflexivity.
  - apply (render_clean (isRooted p) (c :: out')); [discriminate | exact Hwf].
Qed.

Lemma Join_from_root root rest :
  root <> "" -> Join (root :: rest) = Clean (String.concat "/" (root :: rest)).
Proof.
  intros Hne. simpl. destruct (String.eqb_spec root ""); [contradiction|].
  reflexivity.
Qed.

Lemma data_dir_not_empty home : Join [home; "data"] <> "".
Proof.
  destruct (Join_data_clean home) as (Hc & Hdot & _).
  intros H. rewrite H in Hc. discriminate Hc.
Qed.

Lemma append_inj_l a x y : (a ++ x = a ++ y)%string -> x = y.
Proof.
  induction a as [|c a IH]; simpl; [tauto|]. intros [= H]. apply IH, H.
Qed.

Lemma string_length_append a b :
  String.length (a ++ b) = (String.length a + String.length b)%nat.
Proof. induction a; simpl; congruence. Qed.

Lemma append_inj_r x y b : (x ++ b = y ++ b)%string -> x = y.
Proof.
  revert y. induction x as [|c x IH]; intros [|d y] H.
  - reflexivity.
  - exfalso. apply (f_equal String.length) in H.
    simpl in H. rewrite string_length_append in H. lia.
  - exfalso. apply (f_equal String.length) in H.
    simpl in H. rewrite string_length_append in H. lia.
  - simpl in H. injection H as -> H. f_equal. apply IH, H.
Qed.

Lemma render_snoc rooted l a :
  render rooted (l ++ [a]) =
  ((if rooted then "/" else "") ++
   match l with
   | [] => a
   | _ => String.concat "/" l ++ "/" ++ a
   end)%string.
Proof.
  unfold render. destruct l as [|x l']; [destruct rooted; reflexivity|].
  rewrite concat_snoc by discriminate.
  destruct rooted; [reflexivity|].
  destruct ((x :: l') ++ [a]) eqn:H; [discriminate H | reflexivity].
Qed.

Lemma render_last_inj rooted l a b :
  render rooted (l ++ [a]) = render rooted (l ++ [b]) -> a = b.
Proof.
  rewrite !render_snoc. intros H. apply append_inj_l in H.
  destruct l; [exact H|]. apply append_inj_l in H. apply append_inj_l in H.
  exact H.
Qed.

(** The path of a store: what the data directory and the network
    directory clean to, then the name of the store. *)
Lemma Join_last root dir db :
  root <> "" -> plain db = true ->
  Join [root; dir; db] =
  render (isRooted root)
    (rev (fold_left (clean_step (isRooted root)) (split root ++ split dir) [])
     ++ [db]).
Proof.
  intros Hroot Hdb. rewrite Join_from_root by exact Hroot.
  change (String.concat "/" [root; dir; db])
    with (root ++ "/" ++ dir ++ "/" ++ db)%string.
  rewrite Clean_nonempty by (apply append_nonempty; exact Hroot).
  rewrite isRooted_app by exact Hroot.
  rewrite !split_app, app_assoc, fold_left_app.
  rewrite (split_no_slash db) by (apply plain_no_slash; exact Hdb).
  cbn [fold_left]. rewrite clean_step_plain by exact Hdb. reflexivity.
Qed.

Variable E : Env.

Lemma checkpoint_GetDbPath_cases P g :
  (forall q, checkpoint.GetDbPath E P q g = Exit 1) \/
  exists g', forall q,
    checkpoint.GetDbPath E P q g =
    Ret (Join [checkpoint.defaultDataDir E;
               checkpoint.netName E (checkpoint.activeNetParams g');
               (q ++ "_" ++ checkpoint.defaultDbType)%string], g').
Proof.
  unfold checkpoint.GetDbPath.
  destruct (checkpoint.loadConfig P) as [[cfg rem]|err]; [right | left; reflexivity].
  eexists. intros q. reflexivity.
Qed.

Lemma database_GetDbPath_cases P g :
  (exists c, forall q, database.GetDbPath E P q g = Exit c) \/
  exists g', forall q,
    database.GetDbPath E P q g =
    Ret (Join [database.defaultDataDir E;
               database.netName E (database.activeNetParams g');
               (q ++ "_" ++ database.defaultDbType)%string], g').
Proof.
  unfold database.GetDbPath.
  destruct (database.flagExit P) as [c|]; [left; exists c; reflexivity | right].
  eexists. intros q. reflexivity.
Qed.

Lemma checkpoint_path_function_prefix P prefix f :
  In (prefix, f) (checkpoint_path_functions E P) ->
  f = checkpoint.GetDbPath E P prefix /\
  plain (prefix ++ "_" ++ checkpoint.defaultDbType) = true.
Proof.
  simpl. intros [H|[H|[H|[]]]]; injection H as <- <-; split; reflexivity.
Qed.

Lemma database_path_function_prefix P prefix f :
  In (prefix, f) (database_path_functions E P) ->
  f = database.GetDbPath E P prefix /\
  plain (prefix ++ "_" ++ database.defaultDbType) = true.
Proof.
  simpl. intros [H|[H|[H|[H|[]]]]]; injection H as <- <-; split; reflexivity.
Qed.

End ResolvedPaths.

(** X11.  Whatever the home directory, the network tables and the flags
    are, every path a path function of the two packages returns is
    non-empty and already in the form filepath.Clean gives: cleaning it
    again changes nothing. *)
Theorem resolved_paths_are_clean
  (E : Env) (PC : checkpoint.Parsed) (PD : database.Parsed) :
  (forall prefix f gc path gc',
     In (prefix, f) (checkpoint_path_functions E PC) ->
     f gc = Ret (path, gc') ->
     filepath.Clean path = path /\ path <> "") /\
  (forall prefix f gd path gd',
     In (prefix, f) (database_path_functions E PD) ->
     f gd = Ret (path, gd') ->
     filepath.Clean path = path /\ path <> "").
Proof.
  split.
  - intros prefix f gc path gc' Hin Hf.
    destruct (checkpoint_path_function_prefix E PC prefix f Hin) as [-> _].
    destruct (checkpoint_GetDbPath_cases E PC gc) as [Hexit|[g' Hret]].
    + rewrite Hexit in Hf. discriminate.
    + rewrite Hret in Hf. apply Ret_pair_inj in Hf as [<- _].
      rewrite Join_from_root by apply data_dir_not_empty.
      split; [apply Clean_idempotent | apply Clean_not_empty].
  - intros prefix f gd path gd' Hin Hf.
    destruct (database_path_function_prefix E PD prefix f Hin) as [-> _].
    destruct (database_GetDbPath_cases E PD gd) as [[c Hexit]|[g' Hret]].
    + rewrite Hexit in Hf. discriminate.
    + rewrite Hret in Hf. apply Ret_pair_inj in Hf as [<- _].
      rewrite Join_from_root by apply data_dir_not_empty.
      split; [apply Clean_idempotent | apply Clean_not_empty].
Qed.

(** X12.  From the same state, two path functions of a package never
    return the same path: the stores of different namespaces live in
    different directories, whatever the home directory and the name of
    the network directory are. *)
Theorem namespaces_have_their_own_directory
  (E : Env) (PC : checkpoint.Parsed) (PD : database.Parsed) :
  (forall prefix1 f1 prefix2 f2 gc path1 g1 path2 g2,
     In (prefix1, f1) (checkpoint_path_functions E PC) ->
     In (prefix2, f2) (checkpoint_path_functions E PC) ->
     f1 gc = Ret (path1, g1) -> f2 gc = Ret (path2, g2) ->
     path1 = path2 -> prefix1 = prefix2) /\
  (forall prefix1 f1 prefix2 f2 gd path1 g1 path2 g2,
     In (prefix1, f1) (database_path_functions E PD) ->
     In (prefix2, f2) (database_path_functions E PD) ->
     f1 gd = Ret (path1, g1) -> f2 gd = Ret (path2, g2) ->
     path1 = path2 -> prefix1 = prefix2).
Proof.
  split.
  - intros prefix1 f1 prefix2 f2 gc path1 g1 path2 g2 Hin1 Hin2 Hf1 Hf2 Heq.
    destruct (checkpoint_path_function_prefix E PC _ _ Hin1) as [-> Hp1].
    destruct (checkpoint_path_function_prefix E PC _ _ Hin2) as [-> Hp2].
    destruct (checkpoint_GetDbPath_cases E PC gc) as [Hexit|[g' Hret]].
    + rewrite Hexit in Hf1. discriminate.
    + rewrite Hret in Hf1, Hf2.
      apply Ret_pair_inj in Hf1 as [<- _]. apply Ret_pair_inj in Hf2 as [<- _].
      rewrite !Join_last in Heq by (apply data_dir_not_empty || assumption).
      apply render_last_inj, append_inj_r in Heq. exact Heq.
  - intros prefix1 f1 prefix2 f2 gd path1 g1 path2 g2 Hin1 Hin2 Hf1 Hf2 Heq.
    destruct (database_path_function_prefix E PD _ _ Hin1) as [-> Hp1].
    destruct (database_path_function_prefix E PD _ _ Hin2) as [-> Hp2].
    destruct (database_GetDbPath_cases E PD gd) as [[c Hexit]|[g' Hret]].
    + rewrite Hexit in Hf1. discriminate.
    + rewrite Hret in Hf1, Hf2.
      apply Ret_pair_inj in Hf1 as [<- _]. apply Ret_pair_inj in Hf2 as [<- _].
      rewrite !Join_last in Heq by (apply data_dir_not_empty || assumption).
      apply render_last_inj, append_inj_r in Heq. exact Heq.
Qed.

(** ** The singleton accessors, one call after the other *)

Section Singletons.

Context {T : Type} (zero : T).

Lemma store_length p (v : T) h :
  List.length (runtime.store p v h) = List.length h.
Proof.
  revert p. induction h as [|x h IH]; intros p; destruct p; simpl;
    try reflexivity. rewrite IH. reflexivity.
Qed.

Lemma accessor_shape_done c :
  runtime.once c = true -> accessor_shape zero c = (runtime.instance c, c).
Proof.
  intros H. unfold accessor_shape, runtime.Do. rewrite H. reflexivity.
Qed.

Lemma accessor_shape_first c :
  runtime.once c = false ->
  accessor_shape zero c =
  (Some (List.length (runtime.heap c)),
   runtime.mkCell (runtime.heap c ++ [zero])
     (Some (List.length (runtime.heap c))) true
     (runtime.slept c + 1000000000)).
Proof.
  intros H. unfold accessor_shape, runtime.Do. rewrite H. reflexivity.
Qed.

Lemma run_accessor_done acts :
  forall c p0,
    runtime.once c = true -> runtime.instance c = Some p0 ->
    let r := run_accessor (accessor_shape zero) acts c in
    Forall (fun p => p = Some p0) (fst r) /\
    runtime.once (snd r) = true /\
    runtime.instance (snd r) = Some p0 /\
    runtime.slept (snd r) = runtime.slept c /\
    List.length (runtime.heap (snd r)) = List.length (runtime.heap c).
Proof.
  induction acts as [|a acts IH]; intros c p0 Ho Hi.
  - cbn [run_accessor fst snd]. repeat split; trivial.
  - destruct a as [|p v].
    + cbn [run_accessor fst snd]. rewrite (accessor_shape_done c Ho). cbn [fst snd].
      destruct (IH c p0 Ho Hi) as (Hp & H1 & H2 & H3 & H4).
      repeat split; trivial. constructor; [exact Hi | exact Hp].
    + cbn [run_accessor fst snd].
      destruct (IH (runtime.mkCell (runtime.store p v (runtime.heap c))
                      (runtime.instance c) (runtime.once c) (runtime.slept c))
                   p0 Ho Hi) as (Hp & H1 & H2 & H3 & H4).
      cbn [runtime.heap runtime.slept] in H3, H4.
      rewrite store_length in H4. repeat split; trivial.
Qed.

Lemma accessor_shape_zero c :
  runtime.once c = false ->
  nth_error (runtime.heap (snd (accessor_shape zero c)))
            (List.length (runtime.heap c)) = Some zero.
Proof.
  intros H. rewrite (accessor_shape_first c H). cbn [snd runtime.heap].
  rewrite nth_error_app2 by lia. rewrite Nat.sub_diag. reflexivity.
Qed.

Lemma accessor_shape_constructs_once :
  constructs_once (accessor_shape zero) zero.
Proof.
  intros acts. induction acts as [|a acts IH]; intros c0 Hfresh p0 ps c.
  - subst ps c p0. cbn [run_accessor fst snd]. split; [constructor|].
    split; [apply accessor_shape_zero, Hfresh|].
    split; [tauto | intros H; contradiction].
  - destruct a as [|p v].
    + subst ps c p0. split; [|split; [apply accessor_shape_zero, Hfresh|]].
      * cbn [run_accessor fst snd].
        rewrite (accessor_shape_first c0 Hfresh). cbn [fst snd].
        constructor; [reflexivity|].
        apply run_accessor_done; reflexivity.
      * split; [cbn [run_accessor fst]; discriminate|]. intros _.
        cbn [run_accessor fst snd].
        rewrite (accessor_shape_first c0 Hfresh). cbn [fst snd].
        set (c1 := runtime.mkCell (runtime.heap c0 ++ [zero])
                     (Some (List.length (runtime.heap c0))) true
                     (runtime.slept c0 + 1000000000)).
        destruct (run_accessor_done acts c1 (List.length (runtime.heap c0))
                    eq_refl eq_refl) as (Hp & Ho & Hi & Hs & Hl).
        split; [exact Hs|]. split.
        -- rewrite Hl. unfold c1. cbn [runtime.heap].
           rewrite length_app. cbn [List.length]. lia.
        -- rewrite accessor_shape_done by exact Ho. rewrite Hi. reflexivity.
    + subst ps c p0. cbn [run_accessor].
      set (c1 := runtime.mkCell (runtime.store p v (runtime.heap c0))
                   (runtime.instance c0) (runtime.once c0) (runtime.slept c0)).
      specialize (IH c1 Hfresh). cbv zeta in IH.
      assert (Hlen : List.length (runtime.heap c1)
                     = List.length (runtime.heap c0))
        by (unfold c1; cbn [runtime.heap]; apply store_length).
      assert (Hsl : runtime.slept c1 = runtime.slept c0) by reflexivity.
      rewrite Hlen, Hsl in IH.
      destruct IH as (Hp & _ & Hnil & Hcons).
      split; [exact Hp|].
      split; [apply accessor_shape_zero, Hfresh|]. split; assumption.
Qed.

End Singletons.

(** X13.  In one goroutine, for each of the seven singleton accessors and
    any history of calls of the accessor and of writes through pointers
    by its callers, starting before the first call: every call returns
    the same non-nil pointer; the object behind it is created by the
    first call with a nil handle; the history sleeps for one second in
    all and allocates one object; and a further call returns the same
    pointer and changes nothing, so a handle opened through the pointer
    stays open. *)
Theorem accessors_construct_once :
  constructs_once checkpoint.GetUserCheckpointDbInstance
    (checkpoint.mkUserCheckpoint None) /\
  constructs_once checkpoint.GetVolatileCheckpointDbInstance
    (checkpoint.mkVolatileCheckpoint None) /\
  constructs_once checkpoint.GetAlertKeyDbInstance
    (checkpoint.mkAlertKey None) /\
  constructs_once database.GetUserCheckpointDbInstance
    (database.mkUserCheckpoint None) /\
  constructs_once database.GetVolatileCheckpointDbInstance
    (database.mkVolatileCheckpoint None) /\
  constructs_once database.GetAlertKeyDbInstance
    (database.mkAlertKey None) /\
  constructs_once database.GetDenyAddressDbInstance
    (database.mkDenyAddress None).
Proof.
  repeat apply conj; apply accessor_shape_constructs_once.
Qed.

(** Two calls around an OpenDB done through the pointer. *)
Example accessor_keeps_open_handle :
  run_accessor checkpoint.GetUserCheckpointDbInstance
    [Call; Through 0 (checkpoint.mkUserCheckpoint (Some empty_db)); Call]
    (runtime.mkCell [] None false 0)
  = ([Some 0%nat; Some 0%nat],
     runtime.mkCell [checkpoint.mkUserCheckpoint (Some empty_db)]
       (Some 0%nat) true 1000000000).
Proof. reflexivity. Qed.

(** ** The deny list *)

Section DenyList.

Import leveldb.

Lemma apply_denies_writable addresses :
  forall m,
    exists m',
      apply_denies addresses (database.mkDenyAddress (Some (mkDB m false)))
        = Ret (database.mkDenyAddress (Some (mkDB m' false))) /\
      (forall a, In a addresses -> get m' a = Some "0") /\
      (forall k, ~ In k addresses -> get m' k = get m k).
Proof.
  induction addresses as [|a addresses IH]; intros m.
  - exists m. split; [reflexivity|]. split; [intros ? [] | reflexivity].
  - destruct (IH (put m a "0")) as (m' & Hrun & Hin & Hout).
    exists m'. split; [exact Hrun|]. split.
    + intros b [<-|Hb]; [|apply Hin, Hb].
      destruct (in_dec string_dec a addresses) as [Hi|Hn]; [apply Hin, Hi|].
      rewrite (Hout a Hn), get_put, String.eqb_refl. reflexivity.
    + intros k Hk. rewrite Hout by (intros H; apply Hk; right; exact H).
      rewrite get_put. destruct (String.eqb_spec k a) as [->|_];
        [exfalso; apply Hk; left; reflexivity | reflexivity].
Qed.

End DenyList.

(** X14.  On an open, writable DenyAddress store, after any history of
    Set calls, repeated addresses included, every address of the history
    is stored with the value "0" and every other key reads as it did
    before: the list only grows. *)
Theorem deny_list_grows (db : leveldb.DB) (addresses : list string)
  (Hrw : leveldb.readOnly db = false) :
  exists db',
    apply_denies addresses (database.mkDenyAddress (Some db))
      = Ret (database.mkDenyAddress (Some db')) /\
    leveldb.readOnly db' = false /\
    (forall a, In a addresses ->
       leveldb.get (leveldb.entries db') a = Some "0") /\
    (forall k, ~ In k addresses ->
       leveldb.get (leveldb.entries db') k = leveldb.get (leveldb.entries db) k).
Proof.
  destruct db as [m ro]. simpl in Hrw. subst ro.
  destruct (apply_denies_writable addresses m) as (m' & Hrun & Hin & Hout).
  exists (leveldb.mkDB m' false). split; [exact Hrun|].
  split; [reflexivity|]. split; [exact Hin | exact Hout].
Qed.

Lemma deny_list_grows_witness :
  exists db',
    apply_denies ["addr1"; "addr2"; "addr1"]
      (database.mkDenyAddress (Some empty_db))
      = Ret (database.mkDenyAddress (Some db')) /\
    leveldb.readOnly db' = false /\
    (forall a, In a ["addr1"; "addr2"; "addr1"] ->
       leveldb.get (leveldb.entries db') a = Some "0") /\
    (forall k, ~ In k ["addr1"; "addr2"; "addr1"] ->
       leveldb.get (leveldb.entries db') k
       = leveldb.get (leveldb.entries empty_db) k).
Proof.
  apply (deny_list_grows empty_db ["addr1"; "addr2"; "addr1"]). reflexivity.
Defined.

(** ** The alert keys of the selected network *)

(** X15.  When the flags select a network and the engine opens the store
    at the resolved alert-key path, AlertKey.OpenDB on a closed store
    returns no error, makes that network the active one, and IsValid
    then answers true exactly when the two alert keys of that network are
    stored as "false". *)
Theorem alert_keys_follow_the_selection
  (E : Env) (sel : NetworkSelector) (P : checkpoint.Parsed)
  (g : checkpoint.globals) (db : leveldb.DB)
  (Hsel : checkpoint_selects P sel)
  (Hg : sel = MainNet -> checkpoint.activeNetParams g = MainNetParams E)
  (Hopen : OpenFile E
             (filepath.Join [checkpoint.defaultDataDir E;
                             checkpoint.netName E (selected_params E sel);
                             "alertkey_leveldb"]) = inl db) :
  checkpoint.AlertKey_OpenDB E P (checkpoint.mkAlertKey None) g
    = Ret (None, checkpoint.mkAlertKey (Some db),
           checkpoint.mkGlobals (selected_params E sel)) /\
  ((exists ak', checkpoint.IsValid (checkpoint.mkAlertKey (Some db))
                  (checkpoint.mkGlobals (selected_params E sel))
                = Ret (true, ak')) <->
   leveldb.get (leveldb.entries db)
     (chaincfg.AlertPubMainKey (selected_params E sel)) = Some "false" /\
   leveldb.get (leveldb.entries db)
     (chaincfg.AlertPubSubKey (selected_params E sel)) = Some "false").
Proof.
  split.
  - unfold checkpoint.AlertKey_OpenDB. cbn [checkpoint.Akdb].
    change (checkpoint.GetAlertKeyDbPath E P)
      with (checkpoint.GetDbPath E P checkpoint.alertKeyDbNamePrefix).
    rewrite (checkpoint_GetDbPath_selected E P sel g _ Hsel Hg).
    cbn [bind].
    change (checkpoint.alertKeyDbNamePrefix ++ "_" ++ checkpoint.defaultDbType)%string
      with "alertkey_leveldb".
    rewrite Hopen. reflexivity.
  - apply (IsValid_true_iff (checkpoint.mkGlobals (selected_params E sel)) db).
Qed.

Lemma alert_keys_follow_the_selection_witness :
  checkpoint.AlertKey_OpenDB alert_env testnet_cfg (checkpoint.mkAlertKey None)
    (checkpoint.init alert_env)
    = Ret (None, checkpoint.mkAlertKey (Some alert_db),
           checkpoint.mkGlobals (selected_params alert_env TestNet)) /\
  ((exists ak', checkpoint.IsValid (checkpoint.mkAlertKey (Some alert_db))
                  (checkpoint.mkGlobals (selected_params alert_env TestNet))
                = Ret (true, ak')) <->
   leveldb.get (leveldb.entries alert_db)
     (chaincfg.AlertPubMainKey (selected_params alert_env TestNet))
     = Some "false" /\
   leveldb.get (leveldb.entries alert_db)
     (chaincfg.AlertPubSubKey (selected_params alert_env TestNet))
     = Some "false").
Proof.
  apply (alert_keys_follow_the_selection alert_env TestNet testnet_cfg
           (checkpoint.init alert_env) alert_db).
  - split; reflexivity.
  - discriminate.
  - reflexivity.
Defined.

(** ** One height at a time *)

Section OneHeight.

Import leveldb.

Lemma get_remove_other m key k :
  k <> key -> get (remove m key) k = get m k.
Proof.
  intros Hne. induction m as [|[k0 v0] m IH]; simpl; [reflexivity|].
  destruct (String.compare key k0) eqn:Hc; simpl.
  - apply String.compare_eq_iff in Hc. subst k0.
    destruct (String.eqb_spec k key); [contradiction | reflexivity].
  - reflexivity.
  - rewrite IH. reflexivity.
Qed.

Lemma get_remove_same m key : sorted m -> get (remove m key) key = None.
Proof.
  intros Hs. apply get_None_keys. intros Hin.
  apply (remove_keys m key Hs) in Hin. destruct Hin as [_ Hne].
  apply Hne. reflexivity.
Qed.

End OneHeight.

(** X16.  On an open, writable UserCheckpoint store whose keys are in
    order, Add(h, x) stores x under the key of h and Delete(h) leaves
    nothing under it, and neither changes what is stored for any other
    64-bit height. *)
Theorem Add_and_Delete_touch_one_height
  (db : leveldb.DB) (h h' : Z) (x : string)
  (Hrw : leveldb.readOnly db = false)
  (Hsorted : leveldb.sorted (leveldb.entries db))
  (Hh : is_int64 h) (Hh' : is_int64 h') (Hne : h' <> h) :
  exists added deleted,
    checkpoint.Add (checkpoint.mkUserCheckpoint (Some db)) h x
      = Ret (checkpoint.mkUserCheckpoint (Some added)) /\
    checkpoint.Delete (checkpoint.mkUserCheckpoint (Some db)) h
      = Ret (checkpoint.mkUserCheckpoint (Some deleted)) /\
    leveldb.get (leveldb.entries added) (fmt.Sprintf_020d h) = Some x /\
    leveldb.get (leveldb.entries deleted) (fmt.Sprintf_020d h) = None /\
    leveldb.get (leveldb.entries added) (fmt.Sprintf_020d h')
      = leveldb.get (leveldb.entries db) (fmt.Sprintf_020d h') /\
    leveldb.get (leveldb.entries deleted) (fmt.Sprintf_020d h')
      = leveldb.get (leveldb.entries db) (fmt.Sprintf_020d h') /\
    leveldb.sorted (leveldb.entries added) /\
    leveldb.sorted (leveldb.entries deleted).
Proof.
  assert (Hkey : fmt.Sprintf_020d h' <> fmt.Sprintf_020d h).
  { intros Heq. apply Hne. apply Sprintf_inj; assumption. }
  exists (leveldb.mkDB (leveldb.put (leveldb.entries db) (fmt.Sprintf_020d h) x)
            false),
         (leveldb.mkDB (leveldb.remove (leveldb.entries db) (fmt.Sprintf_020d h))
            false).
  unfold checkpoint.Add, checkpoint.Delete, leveldb.Put, leveldb.Delete.
  cbn [checkpoint.Ucdb]. rewrite Hrw. cbn [leveldb.entries].
  split; [reflexivity|]. split; [reflexivity|].
  split; [rewrite get_put, String.eqb_refl; reflexivity|].
  split; [apply get_remove_same, Hsorted|].
  split.
  { rewrite get_put.
    destruct (String.eqb_spec (fmt.Sprintf_020d h') (fmt.Sprintf_020d h));
      [contradiction | reflexivity]. }
  split; [apply get_remove_other, Hkey|].
  split; [apply put_sorted, Hsorted | apply remove_sorted, Hsorted].
Qed.

Lemma Add_and_Delete_touch_one_height_witness :
  exists added deleted,
    checkpoint.Add (checkpoint.mkUserCheckpoint (Some two_heights_db)) 100 "x"
      = Ret (checkpoint.mkUserCheckpoint (Some added)) /\
    checkpoint.Delete (checkpoint.mkUserCheckpoint (Some two_heights_db)) 100
      = Ret (checkpoint.mkUserCheckpoint (Some deleted)) /\
    leveldb.get (leveldb.entries added) (fmt.Sprintf_020d 100) = Some "x" /\
    leveldb.get (leveldb.entries deleted) (fmt.Sprintf_020d 100) = None /\
    leveldb.get (leveldb.entries added) (fmt.Sprintf_020d 50)
      = leveldb.get (leveldb.entries two_heights_db) (fmt.Sprintf_020d 50) /\
    leveldb.get (leveldb.entries deleted) (fmt.Sprintf_020d 50)
      = leveldb.get (leveldb.entries two_heights_db) (fmt.Sprintf_020d 50) /\
    leveldb.sorted (leveldb.entries added) /\
    leveldb.sorted (leveldb.entries deleted).
Proof.
  apply (Add_and_Delete_touch_one_height two_heights_db 100 50 "x").
  - reflexivity.
  - simpl. split; [intros k' [<-|[]]; reflexivity|].
    split; [intros k' [] | exact I].
  - unfold is_int64, minInt64, maxInt64. lia.
  - unfold is_int64, minInt64, maxInt64. lia.
  - discriminate.
Defined.
